(** * Passtest.py: the SecurePasswordManager vault

    A shallow embedding of [src/Passtest.py].  The class keeps a dictionary
    [self.users] (username to account record), mirrors it into the JSON file
    [secure_password_db.json] and protects a per-account master key with
    AES-GCM envelopes whose keys come from PBKDF2.

    Layout of the development:
    - [Py]       : bytes, exceptions, the state-and-exception monad in which
                   the methods run, the entropy tape behind [os.urandom] and
                   [secrets.choice];
    - [Library]  : the functions the program imports from [cryptography],
                   [base64] and the [str]/[bytes] codecs, with the contract
                   the program relies on ([LibraryLaws]);
    - the methods of [SecurePasswordManager], one definition per method;
    - [Toy]      : a small executable instance of the library contract;
    - the properties. *)

From Stdlib Require Import Strings.Byte Strings.Ascii.
From stdpp Require Import gmap strings list fin_maps pretty.

Open Scope string_scope.
Open Scope list_scope.
Open Scope nat_scope.

(** ** Python values, exceptions and effects *)

Module Py.

Definition bytes : Type := list byte.

(** The exception classes that can reach the program's [try]/[except]
    blocks or escape from its methods. *)
Inductive exn : Type :=
| ValueError      (* cryptography: bad key size, bad iv, short tag; list.remove *)
| InvalidTag      (* cryptography.exceptions.InvalidTag: the tag does not verify *)
| BinasciiError   (* base64.b64decode on malformed input *)
| UnicodeDecodeError
| KeyError
| IndexError
| TypeError.

Inductive outcome (A : Type) : Type :=
| Return (a : A)
| Raise (e : exn).
Arguments Return {A} a.
Arguments Raise {A} e.

Definition obind {A B} (o : outcome A) (k : A -> outcome B) : outcome B :=
  match o with
  | Return a => k a
  | Raise e => Raise e
  end.

(** [b[i:j]] on bytes: slicing never raises, it clips. *)
Definition slice (i j : nat) (b : bytes) : bytes := take (j - i) (drop i b).
Definition slice_from (i : nat) (b : bytes) : bytes := drop i b.

(** [list.remove(x)]: drops the first element equal to [x] (by [==]);
    [None] stands for the [ValueError] of an absent element. *)
Fixpoint list_remove {A} `{EqDecision A} (x : A) (l : list A) : option (list A) :=
  match l with
  | [] => None
  | y :: l' =>
      if decide (y = x) then Some l'
      else match list_remove x l' with
           | Some r => Some (y :: r)
           | None => None
           end
  end.

End Py.
Export Py.

(** ** The imported library functions *)

(** What the program calls in [cryptography], [base64] and the text codecs.
    [AESGCM_encrypt key iv data] is the pair (ciphertext, tag) that
    [encryptor.update(data) + encryptor.finalize()] and [encryptor.tag]
    give; [AESGCM_decrypt key iv tag ciphertext] is [None] when
    [decryptor.finalize()] raises [InvalidTag].  The argument checks of
    [algorithms.AES] and [modes.GCM] are not part of these functions: they
    are written out below ([algorithms_AES], [modes_GCM]).  A [string] stands
    for a Python [str] that [encode()] accepts. *)
Class Library : Type := {
  PBKDF2HMAC_derive : nat -> bytes -> N -> bytes -> bytes;
    (* length, salt, iterations, password *)
  AESGCM_encrypt : bytes -> bytes -> bytes -> bytes * bytes;
  AESGCM_decrypt : bytes -> bytes -> bytes -> bytes -> option bytes;
  str_encode : string -> bytes;              (* s.encode() *)
  bytes_decode : bytes -> option string;     (* b.decode(), None = UnicodeDecodeError *)
  b64encode : bytes -> string;               (* base64.b64encode(b).decode('ascii') *)
  b64decode : string -> option bytes         (* base64.b64decode(s.encode('ascii')) *)
}.

(** [algorithms.AES(key)] accepts 128, 192 and 256 bit keys. *)
Definition AES_key_size (key : bytes) : bool :=
  bool_decide (length key = 16 ∨ length key = 24 ∨ length key = 32).

(** [modes.GCM(iv)] and [modes.GCM(iv, tag)] accept an iv of 8 to 128 bytes. *)
Definition GCM_iv_size (iv : bytes) : bool :=
  bool_decide (8 ≤ length iv ≤ 128)%nat.

(** The contract of the library the program relies on: PBKDF2 returns the
    length asked for; under a key and an iv that pass the checks, AES-GCM
    returns a ciphertext as long as the data and a 16-byte tag, and
    decrypts what it encrypted; the codecs invert each other.  Nothing is
    assumed about decryption under another key or of other bytes.  (The
    library's cap of 2^36 - 32 bytes per GCM message is left out.) *)
Class LibraryLaws (L : Library) : Prop := {
  derive_length : ∀ n salt iterations password,
    length (PBKDF2HMAC_derive n salt iterations password) = n;
  encrypt_ciphertext_length : ∀ key iv data,
    AES_key_size key = true → GCM_iv_size iv = true →
    length (AESGCM_encrypt key iv data).1 = length data;
  encrypt_tag_length : ∀ key iv data,
    AES_key_size key = true → GCM_iv_size iv = true →
    length (AESGCM_encrypt key iv data).2 = 16;
  decrypt_encrypt : ∀ key iv data,
    AES_key_size key = true → GCM_iv_size iv = true →
    AESGCM_decrypt key iv (AESGCM_encrypt key iv data).2
                          (AESGCM_encrypt key iv data).1 = Some data;
  decode_encode : ∀ s, bytes_decode (str_encode s) = Some s;
  b64decode_b64encode : ∀ b, b64decode (b64encode b) = Some b
}.

(** The spec's wrong-key property, for the keys the program uses (the
    32-byte keys PBKDF2 derives): what was sealed under one of them is
    refused under another.  It is an idealisation, true of AES-GCM up to a
    chance of 2^-128 per trial, and it is assumed only where a statement
    names it. *)
Class WrongKeyRejected (L : Library) : Prop :=
  wrong_key_rejected :
    ∀ salt iterations password salt' iterations' password' iv data,
      let key := PBKDF2HMAC_derive 32 salt iterations password in
      let key' := PBKDF2HMAC_derive 32 salt' iterations' password' in
      key ≠ key' → GCM_iv_size iv = true →
      AESGCM_decrypt key' iv (AESGCM_encrypt key iv data).2
                             (AESGCM_encrypt key iv data).1 = None.

(** ** The account store *)

(** One element of [recovery_data]: the dictionary
    [{'salt': ..., 'encrypted_key': ...}]. *)
Record recovery_entry : Type := RecoveryEntry {
  recovery_salt : string;
  encrypted_key : string
}.

#[global] Instance recovery_entry_eq_dec : EqDecision recovery_entry.
Proof. solve_decision. Defined.

(** One value of [self.users]. *)
Record user_data : Type := UserData {
  salt : string;
  encrypted_master_key : string;
  passwords : gmap string string;
  recovery_data : list recovery_entry
}.

(** The manager object, the database file and the entropy still to come:
    [users] is [self.users], [db_file] the decoded content of
    [secure_password_db.json] ([None]: missing or not JSON), [entropy] the
    bytes the operating system's generator will hand out next. *)
Record world : Type := World {
  users : gmap string user_data;
  db_file : option (gmap string user_data);
  entropy : nat → byte
}.

Definition M (A : Type) : Type := world → outcome A * world.

Definition ret {A} (a : A) : M A := λ w, (Return a, w).
Definition raise {A} (e : exn) : M A := λ w, (Raise e, w).
Definition bind {A B} (m : M A) (k : A → M B) : M B :=
  λ w, match m w with
       | (Return a, w') => k a w'
       | (Raise e, w') => (Raise e, w')
       end.
Definition lift {A} (o : outcome A) : M A := λ w, (o, w).

(** [try: body  except: handler] with a bare [except]: every exception is
    caught, the state reached when it was raised is kept. *)
Definition try_except {A} (body : M A) (handler : M A) : M A :=
  λ w, match body w with
       | (Return a, w') => (Return a, w')
       | (Raise _, w') => handler w'
       end.

Notation "'let*' x ':=' m 'in' k" := (bind m (λ x, k))
  (at level 10, x pattern, m at level 100, k at level 200).
Notation "m '>>' k" := (bind m (λ _, k))
  (at level 65, right associativity).

(** [os.urandom(n)]: the next [n] bytes of the tape, which moves on. *)
Definition next_bytes (n : nat) (w : world) : bytes := entropy w <$> seq 0 n.
Definition advance (n : nat) (w : world) : world :=
  World (users w) (db_file w) (λ i, entropy w (n + i)).

Definition os_urandom (n : nat) : M bytes :=
  λ w, (Return (next_bytes n w), advance n w).

(** [secrets.choice(seq)]: an element of [seq] picked by the generator.
    The library draws 4 bits at a time until the number is below
    [len(seq)]; here one byte of the tape, reduced modulo [len(seq)], picks
    the element. *)
Definition secrets_choice (chars : list ascii) : M ascii :=
  match chars with
  | [] => raise IndexError
  | c :: _ =>
      let* r := os_urandom 1 in
      match r with
      | b :: _ => ret (nth (N.to_nat (Byte.to_N b) mod length chars) chars c)
      | [] => raise IndexError
      end
  end.

Definition get_users : M (gmap string user_data) := λ w, (Return (users w), w).
Definition set_users (u : gmap string user_data) : M unit :=
  λ w, (Return tt, World u (db_file w) (entropy w)).

(** [self.users[username]] *)
Definition users_getitem (username : string) : M user_data :=
  let* us := get_users in
  match us !! username with
  | Some user_data => ret user_data
  | None => raise KeyError
  end.

(** ** The methods of SecurePasswordManager *)

Section Manager.
Context {L : Library}.

Definition load_database : M unit :=
  λ w, (Return tt, World (default ∅ (db_file w)) (db_file w) (entropy w)).

(** The file is taken to be writable: the [OSError] that [open] or
    [json.dump] can raise is not modelled, so what is stated about a run
    is stated about a run in which the store writes. *)
Definition save_database : M unit :=
  λ w, (Return tt, World (users w) (Some (users w)) (entropy w)).

Definition generate_salt (length : nat) : M bytes := os_urandom length.

Definition derive_key (password : string) (salt : bytes) (iterations : N) : bytes :=
  PBKDF2HMAC_derive 32 salt iterations (str_encode password).

(** [algorithms.AES(key)] *)
Definition algorithms_AES (key : bytes) : outcome bytes :=
  if AES_key_size key then Return key else Raise ValueError.

(** [modes.GCM(iv, tag)] with the default [min_tag_length=16] *)
Definition modes_GCM (iv : bytes) (tag : option bytes) : outcome (bytes * option bytes) :=
  if GCM_iv_size iv then
    match tag with
    | Some t => if bool_decide (length t < 16)%nat then Raise ValueError
                else Return (iv, tag)
    | None => Return (iv, tag)
    end
  else Raise ValueError.

Definition encrypt_data (data key : bytes) : M bytes :=
  let* iv := os_urandom 16 in
  let* k := lift (algorithms_AES key) in
  let* mode := lift (modes_GCM iv None) in
  let '(encrypted_data, tag) := AESGCM_encrypt k iv data in
  ret (iv ++ tag ++ encrypted_data).

(** The envelope [encrypt_data] returns when it drew the iv [iv]. *)
Definition seal (key iv data : bytes) : bytes :=
  iv ++ (AESGCM_encrypt key iv data).2 ++ (AESGCM_encrypt key iv data).1.

Definition decrypt_data (encrypted_data key : bytes) : outcome bytes :=
  let iv := slice 0 16 encrypted_data in
  let tag := slice 16 32 encrypted_data in
  let ciphertext := slice_from 32 encrypted_data in
  obind (algorithms_AES key) (λ k,
  obind (modes_GCM iv (Some tag)) (λ mode,
  match AESGCM_decrypt k iv tag ciphertext with
  | Some plain => Return plain
  | None => Raise InvalidTag
  end)).

(** [base64.b64decode(s.encode('ascii'))] as the program calls it. *)
Definition base64_b64decode (s : string) : outcome bytes :=
  match b64decode s with
  | Some b => Return b
  | None => Raise BinasciiError
  end.

(** [''.join(secrets.choice(chars) for _ in range(n))] *)
Fixpoint join_choices (chars : list ascii) (n : nat) : M string :=
  match n with
  | 0 => ret EmptyString
  | S n' =>
      let* c := secrets_choice chars in
      let* s := join_choices chars n' in
      ret (String c s)
  end.

Definition digits : list ascii := String.list_ascii_of_string "0123456789".

(** The body of [for _ in range(n)] in [create_account], with the two
    lists it appends to. *)
Fixpoint recovery_loop (n : nat) (master_key : bytes)
    (recovery_codes : list string) (recovery_data : list recovery_entry)
    : M (list string * list recovery_entry) :=
  match n with
  | 0 => ret (recovery_codes, recovery_data)
  | S n' =>
      let* code := join_choices digits 8 in
      let recovery_codes := recovery_codes ++ [code] in
      let* recovery_salt := generate_salt 16 in
      let recovery_key := derive_key code recovery_salt 100000%N in
      let* encrypted_key := encrypt_data master_key recovery_key in
      let recovery_data :=
        recovery_data ++ [RecoveryEntry (b64encode recovery_salt)
                                        (b64encode encrypted_key)] in
      recovery_loop n' master_key recovery_codes recovery_data
  end.

Definition create_account (username master_password : string)
    : M (bool * string * list string) :=
  let* us := get_users in
  if decide (is_Some (us !! username)) then
    ret (false, "Username already exists", [])
  else
    let* salt := generate_salt 16 in
    let encryption_key := derive_key master_password salt 100000%N in
    let* master_key := os_urandom 32 in
    let* encrypted_master_key := encrypt_data master_key encryption_key in
    let* (recovery_codes, recovery_data) := recovery_loop 10 master_key [] [] in
    let* us := get_users in
    set_users (<[username := UserData (b64encode salt)
                                      (b64encode encrypted_master_key)
                                      ∅ recovery_data]> us) >>
    save_database >>
    ret (true, "Account created successfully", recovery_codes).

Definition login (username master_password : string)
    : M (bool * string * option bytes) :=
  let* us := get_users in
  if decide (is_Some (us !! username)) then
    let* user_data := users_getitem username in
    let* salt := lift (base64_b64decode (salt user_data)) in
    let encryption_key := derive_key master_password salt 100000%N in
    let* encrypted_master_key :=
      lift (base64_b64decode (encrypted_master_key user_data)) in
    try_except
      (let* master_key := lift (decrypt_data encrypted_master_key encryption_key) in
       ret (true, "Login successful", Some master_key))
      (ret (false, "Invalid password", None))
  else ret (false, "User not found", None).

(** [self.users[username]['passwords'][service] = value] *)
Definition passwords_setitem (username service value : string) : M unit :=
  let* user_data := users_getitem username in
  let* us := get_users in
  set_users (<[username := UserData (salt user_data)
                                    (encrypted_master_key user_data)
                                    (<[service := value]> (passwords user_data))
                                    (recovery_data user_data)]> us).

Definition add_password (username master_password service password : string)
    : M (bool * string) :=
  let* us := get_users in
  if decide (is_Some (us !! username)) then
    let* (success, message, master_key) := login username master_password in
    if negb success then ret (success, message)
    else
      match master_key with
      | Some master_key =>
          let* encrypted_password :=
            encrypt_data (str_encode password) master_key in
          passwords_setitem username service (b64encode encrypted_password) >>
          save_database >>
          ret (true, "Password for " +:+ service +:+ " added successfully")
      | None => raise TypeError
      end
  else ret (false, "User not found").

Definition get_password (username master_password service : string)
    : M (bool * string * option string) :=
  let* us := get_users in
  if decide (is_Some (us !! username)) then
    let* (success, message, master_key) := login username master_password in
    if negb success then ret (success, message, None)
    else
      let* user_data := users_getitem username in
      match passwords user_data !! service with
      | None => ret (false, "No password stored for " +:+ service, None)
      | Some stored =>
          let* encrypted_password := lift (base64_b64decode stored) in
          try_except
            (let* decrypted_password :=
               match master_key with
               | Some master_key =>
                   lift (decrypt_data encrypted_password master_key)
               | None => raise TypeError
               end in
             match bytes_decode decrypted_password with
             | Some text => ret (true, "Password for " +:+ service, Some text)
             | None => raise UnicodeDecodeError
             end)
            (ret (false, "Failed to decrypt password", None))
      end
  else ret (false, "User not found", None).

(** The three writes through the alias [user_data = self.users[username]]. *)
Definition user_data_set_salt (username value : string) : M unit :=
  let* user_data := users_getitem username in
  let* us := get_users in
  set_users (<[username := UserData value (encrypted_master_key user_data)
                                    (passwords user_data)
                                    (recovery_data user_data)]> us).

Definition user_data_set_encrypted_master_key (username value : string) : M unit :=
  let* user_data := users_getitem username in
  let* us := get_users in
  set_users (<[username := UserData (salt user_data) value
                                    (passwords user_data)
                                    (recovery_data user_data)]> us).

(** [user_data['recovery_data'].remove(recovery_entry)] *)
Definition recovery_data_remove (username : string) (entry : recovery_entry) : M unit :=
  let* user_data := users_getitem username in
  match list_remove entry (recovery_data user_data) with
  | None => raise ValueError
  | Some rest =>
      let* us := get_users in
      set_users (<[username := UserData (salt user_data)
                                        (encrypted_master_key user_data)
                                        (passwords user_data) rest]> us)
  end.

(** The loop [for recovery_entry in user_data['recovery_data']] of
    [recover_account]; the two [b64decode] calls sit before the [try]. *)
Fixpoint recover_scan (username recovery_code new_master_password : string)
    (entries : list recovery_entry) : M (bool * string * option bytes) :=
  match entries with
  | [] => ret (false, "Invalid recovery code", None)
  | recovery_entry :: entries' =>
      let* recovery_salt := lift (base64_b64decode (recovery_salt recovery_entry)) in
      let recovery_key := derive_key recovery_code recovery_salt 100000%N in
      let* encrypted_key := lift (base64_b64decode (encrypted_key recovery_entry)) in
      try_except
        (let* master_key := lift (decrypt_data encrypted_key recovery_key) in
         let* new_salt := generate_salt 16 in
         let new_encryption_key := derive_key new_master_password new_salt 100000%N in
         let* new_encrypted_master_key :=
           encrypt_data master_key new_encryption_key in
         user_data_set_salt username (b64encode new_salt) >>
         user_data_set_encrypted_master_key username
           (b64encode new_encrypted_master_key) >>
         recovery_data_remove username recovery_entry >>
         save_database >>
         ret (true, "Account recovered successfully", Some master_key))
        (recover_scan username recovery_code new_master_password entries')
  end.

Definition recover_account (username recovery_code new_master_password : string)
    : M (bool * string * option bytes) :=
  let* us := get_users in
  if decide (is_Some (us !! username)) then
    let* user_data := users_getitem username in
    recover_scan username recovery_code new_master_password
                 (recovery_data user_data)
  else ret (false, "User not found", None).

(** What one turn of that loop learns about an entry, given the code:
    [Raise] when a [b64decode] fails (nothing catches it), [Return None]
    when [decrypt_data] raises (the [except] clause moves on), and
    [Return (Some master_key)] when the entry opens. *)
Definition try_entry (recovery_code : string) (entry : recovery_entry)
    : outcome (option bytes) :=
  obind (base64_b64decode (recovery_salt entry)) (λ recovery_salt,
  obind (base64_b64decode (encrypted_key entry)) (λ encrypted_key,
  match decrypt_data encrypted_key (derive_key recovery_code recovery_salt 100000%N) with
  | Return master_key => Return (Some master_key)
  | Raise _ => Return None
  end)).

(** What [login] computes from an account record.  *)
Definition check_password (user_data : user_data) (master_password : string)
    : outcome (bool * string * option bytes) :=
  obind (base64_b64decode (salt user_data)) (λ salt,
  obind (base64_b64decode (encrypted_master_key user_data)) (λ encrypted_master_key,
  match decrypt_data encrypted_master_key
                     (derive_key master_password salt 100000%N) with
  | Return master_key => Return (true, "Login successful", Some master_key)
  | Raise _ => Return (false, "Invalid password", None)
  end)).

(** What [get_password] does after a successful [login]: the lookup in
    [passwords], the [b64decode] before the [try], the [try] itself. *)
Definition fetch_password (passwords : gmap string string) (service : string)
    (master_key : option bytes) : outcome (bool * string * option string) :=
  match passwords !! service with
  | None => Return (false, "No password stored for " +:+ service, None)
  | Some stored =>
      obind (base64_b64decode stored) (λ encrypted_password,
      match obind (match master_key with
                   | Some master_key => decrypt_data encrypted_password master_key
                   | None => Raise TypeError
                   end)
                  (λ decrypted_password,
                   match bytes_decode decrypted_password with
                   | Some text => Return text
                   | None => Raise UnicodeDecodeError
                   end) with
      | Return text => Return (true, "Password for " +:+ service, Some text)
      | Raise _ => Return (false, "Failed to decrypt password", None)
      end)
  end.

(** The world a successful [recover_account] leaves, when it started the
    re-keying in [w] with the master key [master_key] and [rest] is the
    recovery list without the entry used. *)
Definition recovered (username new_master_password : string)
    (user_data : user_data) (master_key : bytes)
    (rest : list recovery_entry) (w : world) : world :=
  let new_salt := next_bytes 16 w in
  let iv := next_bytes 16 (advance 16 w) in
  let new_encryption_key := derive_key new_master_password new_salt 100000%N in
  let us := <[username := UserData (b64encode new_salt)
                            (b64encode (seal new_encryption_key iv master_key))
                            (passwords user_data) rest]> (users w) in
  World us (Some us) (entropy (advance 16 (advance 16 w))).

(** A recovery code as [create_account] hands it out: eight characters,
    each one of [0123456789]. *)
Definition recovery_code_ok (code : string) : Prop :=
  String.length code = 8 ∧ Forall (λ ch, ch ∈ digits) (String.list_ascii_of_string code).

(** The record [create_account] stores, given what it drew in [w] and the
    recovery list [recovery_data] it built. *)
Definition created (master_password : string) (w : world)
    (recovery_data : list recovery_entry) : user_data :=
  let salt := next_bytes 16 w in
  let master_key := next_bytes 32 (advance 16 w) in
  let iv := next_bytes 16 (advance 32 (advance 16 w)) in
  UserData (b64encode salt)
    (b64encode (seal (derive_key master_password salt 100000%N) iv master_key))
    ∅ recovery_data.

(** [SecurePasswordManager()]: an empty table, then [load_database]. *)
Definition init : M unit := set_users ∅ >> load_database.

(** Both fields of a recovery entry are base64 the decoder accepts. *)
Definition entry_decodes (entry : recovery_entry) : Prop :=
  is_Some (b64decode (recovery_salt entry)) ∧
  is_Some (b64decode (encrypted_key entry)).


(** Every base64 field of an account record is one the decoder accepts. *)
Definition record_decodes (a : user_data) : Prop :=
  is_Some (b64decode (salt a)) ∧
  is_Some (b64decode (encrypted_master_key a)) ∧
  Forall entry_decodes (recovery_data a) ∧
  map_Forall (λ _ stored, is_Some (b64decode stored)) (passwords a).

Definition store_decodes (w : world) : Prop :=
  map_Forall (λ _ a, record_decodes a) (users w).

End Manager.

(** ** The interactive console *)

(** The terminal of [test_secure_manager]: the lines still to be typed,
    what has been written so far (one element per [print] or prompt), and
    the manager. *)
Record console : Type := Console {
  stdin : list string;
  stdout : list string;
  manager : world
}.

(** How a run can stop short: [input] at the end of the input, an
    exception of the manager that nothing catches.  [Running] is not a way
    to stop: it marks a loop cut off by its step bound. *)
Inductive fault : Type :=
| EOFError
| Uncaught (e : exn)
| Running.

Inductive io_outcome (A : Type) : Type :=
| Done (a : A)
| Fault (f : fault).
Arguments Done {A} a.
Arguments Fault {A} f.

Definition IO (A : Type) : Type := console → io_outcome A * console.

Definition io_ret {A} (a : A) : IO A := λ c, (Done a, c).
Definition io_bind {A B} (m : IO A) (k : A → IO B) : IO B :=
  λ c, match m c with
       | (Done a, c') => k a c'
       | (Fault f, c') => (Fault f, c')
       end.

Notation "'let+' x ':=' m 'in' k" := (io_bind m (λ x, k))
  (at level 10, x pattern, m at level 100, k at level 200).
Notation "m '>>+' k" := (io_bind m (λ _, k))
  (at level 65, right associativity).

Definition nl : string := String "010"%char EmptyString.

(** [print(s)] *)
Definition print (s : string) : IO unit :=
  λ c, (Done tt, Console (stdin c) (stdout c ++ [s +:+ nl]) (manager c)).

(** [input(prompt)] *)
Definition input (prompt : string) : IO string :=
  λ c, match stdin c with
       | [] => (Fault EOFError, Console [] (stdout c ++ [prompt]) (manager c))
       | line :: rest =>
           (Done line, Console rest (stdout c ++ [prompt]) (manager c))
       end.

(** A call of a method of [manager]. *)
Definition call {A} (m : M A) : IO A :=
  λ c, match m (manager c) with
       | (Return a, w) => (Done a, Console (stdin c) (stdout c) w)
       | (Raise e, w) => (Fault (Uncaught e), Console (stdin c) (stdout c) w)
       end.

Section Console.
Context {L : Library}.

(** [for i, code in enumerate(recovery_codes, i): print(f"{i}. {code}")] *)
Fixpoint print_codes (i : nat) (recovery_codes : list string) : IO unit :=
  match recovery_codes with
  | [] => io_ret tt
  | code :: rest => print (pretty i +:+ ". " +:+ code) >>+ print_codes (S i) rest
  end.

(** One turn of the [while True] loop; [continue] is the rest of the loop,
    which every branch but [break] goes on to. *)
Definition menu_turn (continue : IO unit) : IO unit :=
  let+ choice := input (nl +:+ "Enter your choice: ") in
  if decide (choice = "1") then
    let+ username := input "Enter username: " in
    let+ password := input "Enter master password: " in
    let+ (success, message, recovery_codes) :=
      call (create_account username password) in
    print message >>+
    (if success : bool then
       print "Recovery Codes (save these in a secure place):" >>+
       print_codes 1 recovery_codes
     else io_ret tt) >>+
    continue
  else if decide (choice = "2") then
    let+ username := input "Enter username: " in
    let+ password := input "Enter master password: " in
    let+ (success, message, _) := call (login username password) in
    print message >>+
    continue
  else if decide (choice = "3") then
    let+ username := input "Enter username: " in
    let+ password := input "Enter master password: " in
    let+ service := input "Enter service name: " in
    let+ service_password :=
      input ("Enter password for " +:+ service +:+ ": ") in
    let+ (success, message) :=
      call (add_password username password service service_password) in
    print message >>+
    continue
  else if decide (choice = "4") then
    let+ username := input "Enter username: " in
    let+ password := input "Enter master password: " in
    let+ service := input "Enter service name: " in
    let+ (success, message, password) :=
      call (get_password username password service) in
    (if success : bool then
       print (message +:+ ": " +:+ default "None" password)
     else print message) >>+
    continue
  else if decide (choice = "5") then
    let+ username := input "Enter username: " in
    let+ recovery_code := input "Enter recovery code: " in
    let+ new_password := input "Enter new master password: " in
    let+ (success, message, _) :=
      call (recover_account username recovery_code new_password) in
    print message >>+
    continue
  else if decide (choice = "6") then
    print "Exiting..."
  else
    print "Invalid choice. Please try again." >>+
    continue.

(** The loop, at most [steps] turns of it. *)
Fixpoint menu_loop (steps : nat) : IO unit :=
  match steps with
  | 0 => λ c, (Fault Running, c)
  | S steps' => menu_turn (menu_loop steps')
  end.

(** [test_secure_manager()], the loop bounded by [steps] turns. *)
Definition test_secure_manager (steps : nat) : IO unit :=
  call init >>+
  print "=== Secure Password Manager ===" >>+
  print "1. Create Account" >>+
  print "2. Login" >>+
  print "3. Add Password" >>+
  print "4. Get Password" >>+
  print "5. Recover Account" >>+
  print "6. Exit" >>+
  menu_loop steps.

(** The program on a terminal where [lines] will be typed: every turn of
    the loop reads a line, so one turn more than there are lines is all
    the loop can take. *)
Definition main (lines : list string) (w : world) : io_outcome unit * console :=
  test_secure_manager (S (length lines)) (Console lines [] w).

(** What [print_codes] writes. *)
Fixpoint numbered (i : nat) (recovery_codes : list string) : list string :=
  match recovery_codes with
  | [] => []
  | code :: rest =>
      ((pretty i +:+ ". " +:+ code) +:+ nl) :: numbered (S i) rest
  end.

(** [Q] holds of the outcome and the terminal that [m] leaves from [c]. *)
Definition wp {A} (m : IO A) (Q : io_outcome A → console → Prop)
    (c : console) : Prop :=
  Q (m c).1 (m c).2.

End Console.

(** ** An executable instance of the library contract *)

(** The instance is not AES-GCM: it is the smallest thing that satisfies
    [LibraryLaws], kept to run the methods on concrete inputs.  The key
    stream is the identity and the tag is cut from the key and the iv. *)
Module Toy.

#[global] Instance byte_eq_dec : EqDecision byte := Byte.byte_eq_dec.

Definition pad (n : nat) (b : bytes) : bytes := take n (b ++ replicate n x00).

Definition toy_tag (key iv : bytes) : bytes := pad 16 (key ++ iv).

#[local] Instance lib : Library := {|
  PBKDF2HMAC_derive n salt iterations password := pad n (password ++ salt);
  AESGCM_encrypt key iv data := (data, toy_tag key iv);
  AESGCM_decrypt key iv tag ciphertext :=
    if decide (tag = toy_tag key iv) then Some ciphertext else None;
  str_encode := String.list_byte_of_string;
  bytes_decode b := Some (String.string_of_list_byte b);
  b64encode := String.string_of_list_byte;
  b64decode s := Some (String.list_byte_of_string s)
|}.

(** A fresh manager: no users, no database file, an entropy tape that
    counts upwards from [seed] (modulo 256). *)
Definition tape (seed : nat) : nat → byte :=
  λ i, default x00 (Byte.of_nat ((seed + i) mod 256)).

Definition zeros : nat → byte := λ _, x00.

Definition fresh (t : nat → byte) : world := World ∅ None t.

(** The manager after [create_account("alice", "pw1")], and the codes that
    call returned. *)
Definition alice (t : nat → byte) : world :=
  (create_account "alice" "pw1" (fresh t)).2.

Definition alice_record (t : nat → byte) : user_data :=
  default (UserData EmptyString EmptyString ∅ []) (users (alice t) !! "alice").

Definition alice_master_key (t : nat → byte) : bytes :=
  next_bytes 32 (advance 16 (fresh t)).

(** The manager after alice then recovered her account. *)
Definition alice_recovered (t : nat → byte) (code new_password : string) : world :=
  (recover_account "alice" code new_password (alice t)).2.

Definition alice_codes (t : nat → byte) : list string :=
  match (create_account "alice" "pw1" (fresh t)).1 with
  | Return (_, _, codes) => codes
  | Raise _ => []
  end.

End Toy.

(** A second instance for the runs that need malformed base64: the toy
    instance with a codec that marks what it encodes with a leading [=]
    and refuses every string without it. *)
Module ToyStrict.

Definition lib : Library := {|
  PBKDF2HMAC_derive := @PBKDF2HMAC_derive Toy.lib;
  AESGCM_encrypt := @AESGCM_encrypt Toy.lib;
  AESGCM_decrypt := @AESGCM_decrypt Toy.lib;
  str_encode := @str_encode Toy.lib;
  bytes_decode := @bytes_decode Toy.lib;
  b64encode b := String "="%char (String.string_of_list_byte b);
  b64decode s :=
    match s with
    | String "="%char rest => Some (String.list_byte_of_string rest)
    | _ => None
    end
|}.

(** A table with one record whose salt is not base64. *)
Definition damaged : world :=
  World {[ "mallory" := UserData "salt" "=envelope" ∅ [] ]} None Toy.zeros.

End ToyStrict.

(** A third instance, for the runs that need a library that refuses a
    wrong key: the toy instance with a key derivation whose first 16 bytes
    carry all there is of password and salt, so that the toy tag (the
    first 16 bytes of the key) tells any two derived keys apart. *)
Module ToyAuth.

Definition lib : Library := {|
  PBKDF2HMAC_derive n salt iterations password :=
    Toy.pad n (Toy.pad 16 (password ++ salt));
  AESGCM_encrypt := @AESGCM_encrypt Toy.lib;
  AESGCM_decrypt := @AESGCM_decrypt Toy.lib;
  str_encode := @str_encode Toy.lib;
  bytes_decode := @bytes_decode Toy.lib;
  b64encode := @b64encode Toy.lib;
  b64decode := @b64decode Toy.lib
|}.

(** An entropy tape on which the ten recovery codes differ. *)
Definition tape : nat → byte :=
  λ i, default x00 (Byte.of_nat ((i + 3 * (i / 40)) mod 250)).

(** The manager after [create_account("alice", "pw1")], the record made
    and the master key drawn. *)
Definition alice : world :=
  (@create_account lib "alice" "pw1" (Toy.fresh tape)).2.

Definition alice_record : user_data :=
  default (UserData EmptyString EmptyString ∅ []) (users alice !! "alice").

Definition alice_master_key : bytes :=
  next_bytes 32 (advance 16 (Toy.fresh tape)).

(** The manager after alice recovered her account with the first code. *)
Definition alice_recovered : world :=
  (@recover_account lib "alice" "78901234" "newpw" alice).2.

End ToyAuth.


(** ** Properties *)

Arguments next_bytes : simpl never.
Arguments advance : simpl never.
Arguments seal : simpl never.
Arguments os_urandom : simpl never.
Arguments users_getitem : simpl never.
Arguments encrypt_data : simpl never.
Arguments decrypt_data : simpl never.
Arguments derive_key : simpl never.
Arguments login : simpl never.
Arguments save_database : simpl never.
Arguments join_choices : simpl never.
Arguments recovery_loop : simpl never.
Arguments recover_scan : simpl never.
Arguments check_password : simpl never.
Arguments fetch_password : simpl never.
Arguments try_entry : simpl never.
Arguments recovered : simpl never.
Arguments create_account : simpl never.
Arguments add_password : simpl never.
Arguments get_password : simpl never.
Arguments recover_account : simpl never.
Arguments created : simpl never.
Arguments digits : simpl never.

Ltac run := unfold bind, ret, raise, lift, try_except, get_users, set_users; cbn.

Section Envelope.
Context {L : Library}.

Lemma length_next_bytes n w : length (next_bytes n w) = n.
Proof. unfold next_bytes. by rewrite length_fmap, length_seq. Qed.

Lemma os_urandom_run n w : os_urandom n w = (Return (next_bytes n w), advance n w).
Proof. reflexivity. Qed.

Lemma GCM_iv_size_16 iv : length iv = 16 → GCM_iv_size iv = true.
Proof. intros E. unfold GCM_iv_size. apply bool_decide_eq_true. lia. Qed.

Lemma AES_key_size_32 key : length key = 32 → AES_key_size key = true.
Proof. intros E. unfold AES_key_size. apply bool_decide_eq_true. auto. Qed.

Lemma encrypt_data_run data key w :
  AES_key_size key = true →
  encrypt_data data key w = (Return (seal key (next_bytes 16 w) data), advance 16 w).
Proof.
  intros Hk. unfold encrypt_data, algorithms_AES, modes_GCM, os_urandom. run.
  rewrite Hk, GCM_iv_size_16 by apply length_next_bytes.
  unfold seal. by destruct (AESGCM_encrypt _ _ _).
Qed.

Lemma encrypt_data_bad_key data key w :
  AES_key_size key = false →
  encrypt_data data key w = (Raise ValueError, advance 16 w).
Proof.
  intros Hk. unfold encrypt_data, algorithms_AES, os_urandom. run. by rewrite Hk.
Qed.

Context {HL : LibraryLaws L}.

Lemma seal_parts key iv data :
  AES_key_size key = true → length iv = 16 →
  slice 0 16 (seal key iv data) = iv ∧
  slice 16 32 (seal key iv data) = (AESGCM_encrypt key iv data).2 ∧
  slice_from 32 (seal key iv data) = (AESGCM_encrypt key iv data).1.
Proof.
  intros Hk Hiv.
  pose proof (encrypt_tag_length key iv data Hk (GCM_iv_size_16 _ Hiv)) as Ht.
  unfold slice, slice_from, seal. simpl. rewrite drop_0.
  split; [by apply take_app_length'|].
  split.
  - rewrite drop_app_length' by done. by apply take_app_length'.
  - rewrite app_assoc. apply drop_app_length'. rewrite length_app. lia.
Qed.

Lemma length_seal key iv data :
  AES_key_size key = true → length iv = 16 →
  length (seal key iv data) = length data + 32.
Proof.
  intros Hk Hiv. unfold seal. rewrite !length_app.
  rewrite (encrypt_tag_length key iv data Hk (GCM_iv_size_16 _ Hiv)).
  rewrite (encrypt_ciphertext_length key iv data Hk (GCM_iv_size_16 _ Hiv)). lia.
Qed.

Lemma decrypt_data_seal key iv data :
  AES_key_size key = true → length iv = 16 →
  decrypt_data (seal key iv data) key = Return data.
Proof.
  intros Hk Hiv. unfold decrypt_data.
  destruct (seal_parts key iv data Hk Hiv) as (-> & -> & ->).
  unfold algorithms_AES, modes_GCM. rewrite Hk. simpl.
  rewrite (GCM_iv_size_16 _ Hiv).
  rewrite (encrypt_tag_length key iv data Hk (GCM_iv_size_16 _ Hiv)). simpl.
  by rewrite (decrypt_encrypt key iv data Hk (GCM_iv_size_16 _ Hiv)).
Qed.

End Envelope.

Section Login.
Context {L : Library}.

Lemma users_getitem_run u a w :
  users w !! u = Some a → users_getitem u w = (Return a, w).
Proof. intros E. unfold users_getitem. run. by rewrite E. Qed.

Lemma login_absent u pw w :
  users w !! u = None →
  login u pw w = (Return (false, "User not found", None), w).
Proof.
  intros E. unfold login. run. rewrite E.
  destruct (decide (is_Some None)) as [[? ?]|]; done.
Qed.

Lemma login_present u pw w a :
  users w !! u = Some a →
  login u pw w = (check_password a pw, w).
Proof.
  intros E. unfold login, users_getitem, check_password, base64_b64decode. run.
  rewrite E. destruct (decide (is_Some (Some a))) as [_|n]; [|by destruct n].
  cbn. rewrite E. destruct (b64decode (salt a)); cbn; [|done].
  destruct (b64decode (encrypted_master_key a)); cbn; [|done].
  by destruct (decrypt_data _ _).
Qed.

(** [login] reads; it writes nothing, whatever it returns or raises. *)
Lemma login_state u pw w : (login u pw w).2 = w.
Proof.
  destruct (users w !! u) as [a|] eqn:E.
  - by rewrite (login_present _ _ _ _ E).
  - by rewrite (login_absent _ _ _ E).
Qed.

End Login.

Section Passwords.
Context {L : Library}.

Lemma get_password_absent u pw svc w :
  users w !! u = None →
  get_password u pw svc w = (Return (false, "User not found", None), w).
Proof.
  intros E. unfold get_password. run. rewrite E.
  destruct (decide (is_Some None)) as [[? ?]|]; done.
Qed.

Lemma get_password_present u pw svc w a :
  users w !! u = Some a →
  get_password u pw svc w =
    (obind (check_password a pw) (λ r,
       if negb r.1.1 then Return (r.1.1, r.1.2, None)
       else fetch_password (passwords a) svc r.2), w).
Proof.
  intros E. unfold get_password. run. rewrite E.
  destruct (decide (is_Some (Some a))) as [_|n]; [|by destruct n].
  rewrite (login_present _ _ _ _ E).
  destruct (check_password a pw) as [[[success message] master_key]|e]; cbn; [|done].
  destruct success; cbn; [|done].
  rewrite (users_getitem_run _ _ _ E). unfold fetch_password.
  destruct (passwords a !! svc) as [stored|]; [|done].
  unfold base64_b64decode. destruct (b64decode stored) as [enc|]; cbn; [|done].
  destruct master_key as [mk|]; cbn; [|done].
  destruct (decrypt_data enc mk) as [plain|]; cbn; [|done].
  by destruct (bytes_decode plain).
Qed.

Lemma get_password_state u pw svc w : (get_password u pw svc w).2 = w.
Proof.
  destruct (users w !! u) as [a|] eqn:E.
  - by rewrite (get_password_present _ _ _ _ _ E).
  - by rewrite (get_password_absent _ _ _ _ E).
Qed.

Lemma add_password_run u pw svc p w a m mk :
  users w !! u = Some a →
  check_password a pw = Return (true, m, Some mk) →
  AES_key_size mk = true →
  add_password u pw svc p w =
    (Return (true, "Password for " +:+ svc +:+ " added successfully"),
     let us := <[u := UserData (salt a) (encrypted_master_key a)
                   (<[svc := b64encode (seal mk (next_bytes 16 w) (str_encode p))]>
                      (passwords a))
                   (recovery_data a)]> (users w) in
     World us (Some us) (entropy (advance 16 w))).
Proof.
  intros E Hc Hk. unfold add_password. run. rewrite E.
  destruct (decide (is_Some (Some a))) as [_|n]; [|by destruct n].
  rewrite (login_present _ _ _ _ E), Hc. cbn.
  rewrite (encrypt_data_run _ _ _ Hk).
  unfold passwords_setitem. run.
  replace (users (advance 16 w)) with (users w) by done.
  rewrite (users_getitem_run u a (advance 16 w) E). by cbn.
Qed.

End Passwords.

Section Recovery.
Context {L : Library} {HL : LibraryLaws L}.
Implicit Types (u c npw : string) (e : recovery_entry) (w : world).

Lemma AES_key_size_derive_key pw s n : AES_key_size (derive_key pw s n) = true.
Proof. apply AES_key_size_32, derive_length. Qed.

Lemma recover_scan_nil u c npw w :
  recover_scan u c npw [] w = (Return (false, "Invalid recovery code", None), w).
Proof. reflexivity. Qed.

Lemma recover_scan_cons u c npw e es :
  recover_scan u c npw (e :: es) =
  (let* recovery_salt := lift (base64_b64decode (recovery_salt e)) in
   let recovery_key := derive_key c recovery_salt 100000%N in
   let* encrypted_key := lift (base64_b64decode (encrypted_key e)) in
   try_except
     (let* master_key := lift (decrypt_data encrypted_key recovery_key) in
      let* new_salt := generate_salt 16 in
      let new_encryption_key := derive_key npw new_salt 100000%N in
      let* new_encrypted_master_key := encrypt_data master_key new_encryption_key in
      user_data_set_salt u (b64encode new_salt) >>
      user_data_set_encrypted_master_key u (b64encode new_encrypted_master_key) >>
      recovery_data_remove u e >>
      save_database >>
      ret (true, "Account recovered successfully", Some master_key))
     (recover_scan u c npw es)).
Proof. reflexivity. Qed.

Lemma recover_scan_raise u c npw e es w x :
  try_entry c e = Raise x →
  recover_scan u c npw (e :: es) w = (Raise x, w).
Proof.
  intros H. rewrite recover_scan_cons. run.
  unfold try_entry, base64_b64decode in *.
  destruct (b64decode (recovery_salt e)); cbn in *; [|congruence].
  destruct (b64decode (encrypted_key e)); cbn in *; [|congruence].
  by destruct (decrypt_data _ _).
Qed.

Lemma recover_scan_reject u c npw e es w :
  try_entry c e = Return None →
  recover_scan u c npw (e :: es) w = recover_scan u c npw es w.
Proof.
  intros H. rewrite recover_scan_cons. run.
  unfold try_entry, base64_b64decode in *.
  destruct (b64decode (recovery_salt e)); cbn in *; [|congruence].
  destruct (b64decode (encrypted_key e)); cbn in *; [|congruence].
  by destruct (decrypt_data _ _).
Qed.

Lemma recover_scan_match u c npw e es w mk a rest :
  try_entry c e = Return (Some mk) →
  users w !! u = Some a →
  list_remove e (recovery_data a) = Some rest →
  recover_scan u c npw (e :: es) w =
  (Return (true, "Account recovered successfully", Some mk),
   recovered u npw a mk rest w).
Proof.
  intros H Hu Hr. rewrite recover_scan_cons. run.
  unfold try_entry, base64_b64decode in *.
  destruct (b64decode (recovery_salt e)); cbn in *; [|congruence].
  destruct (b64decode (encrypted_key e)); cbn in *; [|congruence].
  destruct (decrypt_data _ _); [|congruence].
  injection H as ->. cbn. unfold generate_salt.
  rewrite os_urandom_run. cbn.
  rewrite (encrypt_data_run _ _ _ (AES_key_size_derive_key _ _ _)). cbn.
  unfold user_data_set_salt, user_data_set_encrypted_master_key,
    recovery_data_remove. run.
  set (w2 := advance 16 (advance 16 w)).
  rewrite (users_getitem_run u a w2 Hu). cbn.
  erewrite users_getitem_run by (cbn; apply lookup_insert_eq). cbn.
  erewrite users_getitem_run by (cbn; apply lookup_insert_eq). cbn.
  rewrite Hr. cbn. unfold save_database, recovered. cbn.
  by rewrite !insert_insert_eq.
Qed.

Lemma recover_scan_all_rejected u c npw es w :
  Forall (λ e, try_entry c e = Return None) es →
  recover_scan u c npw es w = (Return (false, "Invalid recovery code", None), w).
Proof.
  induction 1 as [|e es He _ IH]; [done|].
  by rewrite (recover_scan_reject _ _ _ _ _ _ He).
Qed.

Lemma list_remove_elem_of (e : recovery_entry) l :
  e ∈ l → ∃ rest, list_remove e l = Some rest.
Proof.
  induction 1 as [x l|x y l _ [rest IH]]; cbn.
  - rewrite decide_True by done. eauto.
  - destruct (decide (y = x)); [eauto|]. rewrite IH. eauto.
Qed.

Lemma list_remove_middle (e : recovery_entry) l1 l2 :
  e ∉ l1 → list_remove e (l1 ++ e :: l2) = Some (l1 ++ l2).
Proof.
  induction l1 as [|x l1 IH]; cbn; intros Hn.
  - by rewrite decide_True.
  - rewrite decide_False by (intros ->; apply Hn; left).
    rewrite IH; [done|]. intros Hin. apply Hn. by right.
Qed.

(** The three ways the scan can end, started on a part [es] of the
    account's recovery list. *)
Lemma recover_scan_cases u c npw a es w :
  users w !! u = Some a →
  (∀ e, e ∈ es → e ∈ recovery_data a) →
  (∃ x, recover_scan u c npw es w = (Raise x, w))
  ∨ (Forall (λ e, try_entry c e = Return None) es ∧
     recover_scan u c npw es w =
       (Return (false, "Invalid recovery code", None), w))
  ∨ (∃ l1 e l2 mk rest,
       es = l1 ++ e :: l2 ∧
       Forall (λ e, try_entry c e = Return None) l1 ∧
       try_entry c e = Return (Some mk) ∧
       list_remove e (recovery_data a) = Some rest ∧
       recover_scan u c npw es w =
         (Return (true, "Account recovered successfully", Some mk),
          recovered u npw a mk rest w)).
Proof.
  intros Hu. induction es as [|e es IH]; intros Hsub.
  - right; left. split; [constructor|apply recover_scan_nil].
  - destruct (try_entry c e) as [[mk|]|x] eqn:He.
    + right; right.
      destruct (list_remove_elem_of e (recovery_data a)) as [rest Hr];
        [apply Hsub; left|].
      exists [], e, es, mk, rest. repeat split; [constructor|done..|].
      by apply recover_scan_match.
    + rewrite (recover_scan_reject _ _ _ _ _ _ He).
      destruct IH as [IH|[[Hall IH]|(l1 & e' & l2 & mk & rest & -> & Hl1 & He' & Hr & IH)]].
      * intros e' Hin. apply Hsub. by right.
      * by left.
      * right; left. split; [by constructor|done].
      * right; right. exists (e :: l1), e', l2, mk, rest.
        repeat split; [by constructor|done..].
    + left. exists x. by apply recover_scan_raise.
Qed.

Lemma recover_account_absent u c npw w :
  users w !! u = None →
  recover_account u c npw w = (Return (false, "User not found", None), w).
Proof.
  intros E. unfold recover_account. run. rewrite E.
  destruct (decide (is_Some None)) as [[? ?]|]; done.
Qed.

Lemma recover_account_present u c npw w a :
  users w !! u = Some a →
  recover_account u c npw w = recover_scan u c npw (recovery_data a) w.
Proof.
  intros E. unfold recover_account. run. rewrite E.
  destruct (decide (is_Some (Some a))) as [_|n]; [|by destruct n].
  by rewrite (users_getitem_run _ _ _ E).
Qed.

Lemma recover_account_cases u c npw a w :
  users w !! u = Some a →
  (∃ x, recover_account u c npw w = (Raise x, w))
  ∨ (Forall (λ e, try_entry c e = Return None) (recovery_data a) ∧
     recover_account u c npw w =
       (Return (false, "Invalid recovery code", None), w))
  ∨ (∃ l1 e l2 mk,
       recovery_data a = l1 ++ e :: l2 ∧
       Forall (λ e, try_entry c e = Return None) l1 ∧
       try_entry c e = Return (Some mk) ∧
       recover_account u c npw w =
         (Return (true, "Account recovered successfully", Some mk),
          recovered u npw a mk (l1 ++ l2) w)).
Proof.
  intros Hu. rewrite (recover_account_present _ _ _ _ _ Hu).
  destruct (recover_scan_cases u c npw a (recovery_data a) w Hu)
    as [H|[H|(l1 & e & l2 & mk & rest & Hl & Hl1 & He & Hr & H)]]; auto.
  right; right. exists l1, e, l2, mk. repeat split; [done..|].
  rewrite Hl, list_remove_middle in Hr.
  - by injection Hr as <-.
  - intros Hin. rewrite Forall_forall in Hl1. specialize (Hl1 _ Hin). congruence.
Qed.

Lemma lookup_recovered u npw a mk rest w :
  users (recovered u npw a mk rest w) !! u =
  Some (UserData (b64encode (next_bytes 16 w))
          (b64encode (seal (derive_key npw (next_bytes 16 w) 100000%N)
                           (next_bytes 16 (advance 16 w)) mk))
          (passwords a) rest).
Proof. unfold recovered. cbn. apply lookup_insert_eq. Qed.

Lemma check_password_sealed pw s iv mk ps rd :
  length iv = 16 →
  check_password (UserData (b64encode s)
                    (b64encode (seal (derive_key pw s 100000%N) iv mk)) ps rd) pw
  = Return (true, "Login successful", Some mk).
Proof.
  intros Hiv. unfold check_password, base64_b64decode. cbn.
  rewrite !b64decode_b64encode. cbn.
  by rewrite decrypt_data_seal by (done || apply AES_key_size_derive_key).
Qed.

Lemma login_recovered u npw a mk rest w :
  login u npw (recovered u npw a mk rest w) =
  (Return (true, "Login successful", Some mk), recovered u npw a mk rest w).
Proof.
  rewrite (login_present _ _ _ _ (lookup_recovered _ _ _ _ _ _)).
  by rewrite check_password_sealed by apply length_next_bytes.
Qed.

End Recovery.

Section Creation.
Context {L : Library} {HL : LibraryLaws L}.

Lemma secrets_choice_digits w :
  ∃ d, secrets_choice digits w = (Return d, advance 1 w) ∧ d ∈ digits.
Proof.
  eexists. split; [reflexivity|].
  apply list_elem_of_In, nth_In.
  apply Nat.mod_upper_bound. by cbv.
Qed.

Lemma join_choices_run n w :
  ∃ s w', join_choices digits n w = (Return s, w') ∧
          String.length s = n ∧
          Forall (λ ch, ch ∈ digits) (String.list_ascii_of_string s) ∧
          users w' = users w ∧ db_file w' = db_file w.
Proof.
  revert w. induction n as [|n IH]; intros w.
  - exists EmptyString, w. repeat split; constructor.
  - destruct (secrets_choice_digits w) as (d & Hd & Hin).
    destruct (IH (advance 1 w)) as (s & w' & Hs & Hlen & Hall & Hu & Hf).
    exists (String d s), w'.
    split; [|repeat split; cbn; [by rewrite Hlen|by constructor|done..]].
    change (join_choices digits (S n)) with
      (let* ch := secrets_choice digits in
       let* s := join_choices digits n in ret (String ch s)).
    run. by rewrite Hd, Hs.
Qed.

Lemma try_entry_sealed code s iv mk :
  length iv = 16 →
  try_entry code (RecoveryEntry (b64encode s)
                    (b64encode (seal (derive_key code s 100000%N) iv mk)))
  = Return (Some mk).
Proof.
  intros Hiv. unfold try_entry, base64_b64decode. cbn.
  rewrite !b64decode_b64encode. cbn.
  by rewrite decrypt_data_seal by (done || apply AES_key_size_derive_key).
Qed.

Lemma recovery_loop_run n mk codes rd w :
  ∃ codes' rd' w',
    recovery_loop n mk codes rd w = (Return (codes ++ codes', rd ++ rd'), w') ∧
    length codes' = n ∧
    Forall recovery_code_ok codes' ∧
    Forall2 (λ code e, try_entry code e = Return (Some mk)) codes' rd' ∧
    users w' = users w ∧ db_file w' = db_file w.
Proof.
  revert codes rd w. induction n as [|n IH]; intros codes rd w.
  - exists [], [], w. rewrite !app_nil_r. repeat split; constructor.
  - destruct (join_choices_run 8 w) as (code & w1 & Hj & Hlen & Hdig & Hu1 & Hf1).
    set (s := next_bytes 16 w1).
    set (w2 := advance 16 w1).
    set (e := RecoveryEntry (b64encode s)
                (b64encode (seal (derive_key code s 100000%N) (next_bytes 16 w2) mk))).
    destruct (IH (codes ++ [code]) (rd ++ [e]) (advance 16 w2))
      as (codes' & rd' & w' & Hl & Hn & Hok & Hopen & Hu & Hf).
    exists (code :: codes'), (e :: rd'), w'.
    split; [|repeat split].
    + change (recovery_loop (S n) mk codes rd) with
        (let* code := join_choices digits 8 in
         let recovery_codes := codes ++ [code] in
         let* recovery_salt := generate_salt 16 in
         let recovery_key := derive_key code recovery_salt 100000%N in
         let* encrypted_key := encrypt_data mk recovery_key in
         let recovery_data :=
           rd ++ [RecoveryEntry (b64encode recovery_salt)
                                (b64encode encrypted_key)] in
         recovery_loop n mk recovery_codes recovery_data).
      run. rewrite Hj. unfold generate_salt. rewrite os_urandom_run.
      rewrite (encrypt_data_run _ _ _ (AES_key_size_derive_key _ _ _)).
      fold s w2 e. rewrite Hl. by rewrite <- !app_assoc.
    + cbn. by rewrite Hn.
    + constructor; [by split|done].
    + constructor; [|done]. apply try_entry_sealed, length_next_bytes.
    + by rewrite Hu.
    + by rewrite Hf.
Qed.

Lemma create_account_taken u pw w :
  is_Some (users w !! u) →
  create_account u pw w = (Return (false, "Username already exists", []), w).
Proof.
  intros E. unfold create_account. run. by rewrite decide_True.
Qed.

Lemma create_account_fresh u pw w :
  users w !! u = None →
  ∃ codes rd t,
    create_account u pw w =
      (Return (true, "Account created successfully", codes),
       let us := <[u := created pw w rd]> (users w) in World us (Some us) t) ∧
    length codes = 10 ∧ length rd = 10 ∧
    Forall recovery_code_ok codes ∧
    Forall2 (λ code e,
      try_entry code e = Return (Some (next_bytes 32 (advance 16 w)))) codes rd.
Proof.
  intros E.
  set (w3 := advance 16 (advance 32 (advance 16 w))).
  destruct (recovery_loop_run 10 (next_bytes 32 (advance 16 w)) [] [] w3)
    as (codes & rd & w' & Hl & Hn & Hok & Hopen & Hu & Hf).
  exists codes, rd, (entropy w'). split; [|repeat split; try done].
  - unfold create_account. run. rewrite E.
    destruct (decide (is_Some None)) as [[? ?]|_]; [done|].
    unfold generate_salt. rewrite !os_urandom_run. cbn.
    rewrite (encrypt_data_run _ _ _ (AES_key_size_derive_key _ _ _)).
    fold w3. rewrite Hl. cbn. unfold save_database. cbn.
    unfold created. by rewrite Hu.
  - rewrite <- Hn. symmetry. by eapply Forall2_length.
Qed.

End Creation.

Section Vault.
Context {L : Library} {HL : LibraryLaws L}.

Lemma login_success_inv u pw w m r w' :
  login u pw w = (Return (true, m, r), w') →
  ∃ a, users w !! u = Some a ∧ check_password a pw = Return (true, m, r).
Proof.
  destruct (users w !! u) as [a|] eqn:E.
  - rewrite (login_present _ _ _ _ E). intros [= H _]. eauto.
  - by rewrite (login_absent _ _ _ E).
Qed.

Lemma fetch_password_sealed ps svc mk iv p :
  AES_key_size mk = true → length iv = 16 →
  fetch_password (<[svc := b64encode (seal mk iv (str_encode p))]> ps) svc (Some mk)
  = Return (true, "Password for " +:+ svc, Some p).
Proof.
  intros Hk Hiv. unfold fetch_password, base64_b64decode.
  rewrite lookup_insert_eq, b64decode_b64encode. cbn.
  rewrite decrypt_data_seal by done. cbn.
  by rewrite decode_encode.
Qed.

Lemma add_then_get u pw svc p w a m mk :
  users w !! u = Some a →
  check_password a pw = Return (true, m, Some mk) →
  AES_key_size mk = true →
  ∃ w',
    add_password u pw svc p w
      = (Return (true, "Password for " +:+ svc +:+ " added successfully"), w') ∧
    get_password u pw svc w'
      = (Return (true, "Password for " +:+ svc, Some p), w').
Proof.
  intros Hu Hc Hk.
  eexists. split; [by eapply add_password_run|]. cbn.
  erewrite get_password_present by (cbn; apply lookup_insert_eq).
  replace (check_password _ pw) with (check_password a pw) by done.
  rewrite Hc. cbn.
  by rewrite fetch_password_sealed by (done || apply length_next_bytes).
Qed.

(** The accounts [create_account] makes meet the conditions above: the
    master password logs in and the master key is one AES accepts. *)
Lemma created_account_add_then_get u pw svc p w codes w1 :
  users w !! u = None →
  create_account u pw w
    = (Return (true, "Account created successfully", codes), w1) →
  ∃ w2,
    add_password u pw svc p w1
      = (Return (true, "Password for " +:+ svc +:+ " added successfully"), w2) ∧
    get_password u pw svc w2
      = (Return (true, "Password for " +:+ svc, Some p), w2).
Proof.
  intros E Hc.
  destruct (create_account_fresh u pw w E) as (codes' & rd & t & Hc' & _).
  rewrite Hc' in Hc. injection Hc as _ <-. cbn.
  eapply add_then_get.
  - cbn. apply lookup_insert_eq.
  - unfold created. apply check_password_sealed, length_next_bytes.
  - apply AES_key_size_32, length_next_bytes.
Qed.

(** Recovery told apart from its failures: a successful call is the third
    case of [recover_account_cases]. *)
Lemma recover_account_success_inv u c npw w a m r w' :
  users w !! u = Some a →
  recover_account u c npw w = (Return (true, m, r), w') →
  ∃ l1 e l2 mk,
    recovery_data a = l1 ++ e :: l2 ∧
    Forall (λ e, try_entry c e = Return None) l1 ∧
    try_entry c e = Return (Some mk) ∧
    m = "Account recovered successfully" ∧ r = Some mk ∧
    w' = recovered u npw a mk (l1 ++ l2) w.
Proof.
  intros Hu H.
  destruct (recover_account_cases u c npw a w Hu)
    as [[x Hx]|[[_ Hx]|(l1 & e & l2 & mk & Hl & Hl1 & He & Hx)]];
    rewrite Hx in H; try discriminate H.
  injection H as <- <- <-. by exists l1, e, l2, mk.
Qed.

End Vault.

(** ** The toy instance satisfies the contract *)

Lemma Toy_length_pad n b : length (Toy.pad n b) = n.
Proof.
  unfold Toy.pad. rewrite length_take, length_app, length_replicate. lia.
Qed.

Lemma Toy_laws : LibraryLaws Toy.lib.
Proof.
  split; simpl; intros.
  - apply Toy_length_pad.
  - reflexivity.
  - apply Toy_length_pad.
  - by rewrite decide_True.
  - by rewrite String.string_of_list_byte_of_string.
  - by rewrite String.list_byte_of_string_of_list_byte.
Qed.

(** ** The instance that refuses wrong keys *)

Lemma ToyAuth_laws : LibraryLaws ToyAuth.lib.
Proof.
  split; simpl; intros.
  - apply Toy_length_pad.
  - reflexivity.
  - apply Toy_length_pad.
  - by rewrite decide_True.
  - by rewrite String.string_of_list_byte_of_string.
  - by rewrite String.list_byte_of_string_of_list_byte.
Qed.

Lemma Toy_pad_32_16 (b : bytes) :
  length b = 16 → Toy.pad 32 b = b ++ replicate 16 x00.
Proof.
  intros Hb. unfold Toy.pad. rewrite take_app, Hb.
  rewrite take_ge by lia. by rewrite take_replicate.
Qed.

Lemma Toy_tag_of_key (b iv : bytes) :
  length b = 16 → Toy.toy_tag (Toy.pad 32 b) iv = b.
Proof.
  intros Hb. rewrite (Toy_pad_32_16 b Hb). unfold Toy.toy_tag, Toy.pad.
  rewrite <- !app_assoc. by apply take_app_length'.
Qed.

Lemma ToyAuth_wrong_key : WrongKeyRejected ToyAuth.lib.
Proof.
  intros salt it pw salt' it' pw' iv data key key' Hne _.
  subst key key'.
  cbn [ToyAuth.lib Toy.lib PBKDF2HMAC_derive AESGCM_decrypt AESGCM_encrypt fst snd] in *.
  rewrite !Toy_tag_of_key by apply Toy_length_pad.
  rewrite decide_False; [done|]. intros Heq. apply Hne. by rewrite Heq.
Qed.

Section WrongKey.
Context {L : Library} {HL : LibraryLaws L} {HW : WrongKeyRejected L}.

(** With such a library a password whose key differs from the sealing
    key does not open the envelope. *)
Lemma decrypt_data_other_key pw pw' s iv data :
  length iv = 16 →
  derive_key pw' s 100000%N ≠ derive_key pw s 100000%N →
  decrypt_data (seal (derive_key pw s 100000%N) iv data)
               (derive_key pw' s 100000%N) = Raise InvalidTag.
Proof.
  intros Hiv Hne. unfold decrypt_data.
  destruct (seal_parts (derive_key pw s 100000%N) iv data
              (AES_key_size_derive_key _ _ _) Hiv) as (-> & -> & ->).
  unfold algorithms_AES, modes_GCM.
  rewrite AES_key_size_derive_key. cbn.
  rewrite (GCM_iv_size_16 _ Hiv).
  rewrite (encrypt_tag_length _ iv data (AES_key_size_derive_key pw s _)
             (GCM_iv_size_16 _ Hiv)). cbn.
  unfold derive_key in *.
  rewrite wrong_key_rejected; [done|by intros Heq; apply Hne|].
  by apply GCM_iv_size_16.
Qed.

End WrongKey.

(** ** The envelope cipher *)

(** C1: for every 32-byte key [k] and every plaintext [p], [encrypt_data]
    returns an envelope, and [decrypt_data] of that envelope under the same
    key returns exactly [p]. *)
Theorem decrypt_encrypt_data {L : Library} (HL : LibraryLaws L)
    (p k : bytes) (w : world) :
  length k = 32 →
  ∃ envelope w',
    encrypt_data p k w = (Return envelope, w') ∧
    decrypt_data envelope k = Return p.
Proof.
  intros Hk. apply AES_key_size_32 in Hk.
  exists (seal k (next_bytes 16 w) p), (advance 16 w). split.
  - by apply encrypt_data_run.
  - apply decrypt_data_seal; [done|apply length_next_bytes].
Qed.

Lemma decrypt_encrypt_data_witness :
  length (replicate 32 x2a) = 32 ∧
  ∃ envelope w',
    @encrypt_data Toy.lib [x68; x69] (replicate 32 x2a) (Toy.fresh (Toy.tape 0))
      = (Return envelope, w') ∧
    @decrypt_data Toy.lib envelope (replicate 32 x2a) = Return [x68; x69].
Proof.
  split; [reflexivity|].
  apply (decrypt_encrypt_data Toy_laws). reflexivity.
Defined.

(** C10: the envelope [encrypt_data] produces is [len(p) + 32] bytes long:
    a 16-byte nonce, a 16-byte tag and a ciphertext as long as the
    plaintext.  With a key [algorithms.AES] accepts it does produce one;
    with any key, whatever it produces has that length. *)
Theorem encrypt_data_length {L : Library} (HL : LibraryLaws L)
    (p key : bytes) (w : world) :
  (AES_key_size key = true →
   ∃ envelope w',
     encrypt_data p key w = (Return envelope, w') ∧
     length envelope = length p + 32 ∧
     length (slice 0 16 envelope) = 16 ∧
     length (slice 16 32 envelope) = 16 ∧
     length (slice_from 32 envelope) = length p) ∧
  (∀ envelope w',
     encrypt_data p key w = (Return envelope, w') →
     length envelope = length p + 32).
Proof.
  pose proof (length_next_bytes 16 w) as Hiv.
  split.
  - intros Hk. exists (seal key (next_bytes 16 w) p), (advance 16 w).
    destruct (seal_parts key (next_bytes 16 w) p Hk Hiv) as (-> & -> & ->).
    pose proof (GCM_iv_size_16 _ Hiv) as Hg.
    repeat split.
    + by apply encrypt_data_run.
    + by apply length_seal.
    + by apply encrypt_tag_length.
    + by apply encrypt_ciphertext_length.
  - intros envelope w' H. destruct (AES_key_size key) eqn:Hk.
    + rewrite (encrypt_data_run _ _ _ Hk) in H. injection H as <- _.
      by apply length_seal.
    + by rewrite (encrypt_data_bad_key _ _ _ Hk) in H.
Qed.

Lemma encrypt_data_length_witness :
  ∃ envelope w',
    @encrypt_data Toy.lib [x68; x69; x21] (replicate 32 x2a)
      (Toy.fresh (Toy.tape 0)) = (Return envelope, w') ∧
    length envelope = 3 + 32 ∧
    length (slice 0 16 envelope) = 16 ∧
    length (slice 16 32 envelope) = 16 ∧
    length (slice_from 32 envelope) = 3.
Proof.
  apply (encrypt_data_length Toy_laws [x68; x69; x21] (replicate 32 x2a)).
  reflexivity.
Defined.

(** C9, as the code has it: on an input shorter than 32 bytes
    [decrypt_data] raises whatever the key, and never returns a plaintext;
    the exception is the [ValueError] of the key, iv or tag checks, not the
    [InvalidTag] of a failed verification.  The callers' bare [except]
    makes no difference between the two: [login] answers "Invalid
    password", [get_password] "Failed to decrypt password", and the loop of
    [recover_account] passes over the entry. *)
Theorem decrypt_data_short {L : Library} (enc key : bytes) :
  length enc < 32 →
  decrypt_data enc key = Raise ValueError ∧
  (∀ u pw w a,
     users w !! u = Some a →
     is_Some (b64decode (salt a)) →
     b64decode (encrypted_master_key a) = Some enc →
     login u pw w = (Return (false, "Invalid password", None), w)) ∧
  (∀ ps svc stored,
     ps !! svc = Some stored → b64decode stored = Some enc →
     fetch_password ps svc (Some key)
       = Return (false, "Failed to decrypt password", None)) ∧
  (∀ code e,
     is_Some (b64decode (recovery_salt e)) →
     b64decode (encrypted_key e) = Some enc →
     try_entry code e = Return None).
Proof.
  intros Hlen.
  assert (Hraise : ∀ k, decrypt_data enc k = Raise ValueError).
  { intros k. unfold decrypt_data, algorithms_AES, modes_GCM.
    destruct (AES_key_size k); cbn; [|done].
    destruct (GCM_iv_size _); [|done].
    rewrite bool_decide_eq_true_2; [done|].
    unfold slice. rewrite length_take, length_drop. lia. }
  split; [apply Hraise|]. split; [|split].
  - intros u pw w a Hu [s Hs] He.
    rewrite (login_present _ _ _ _ Hu).
    unfold check_password, base64_b64decode. rewrite Hs, He. cbn.
    by rewrite Hraise.
  - intros ps svc stored Hps Hst.
    unfold fetch_password, base64_b64decode. rewrite Hps, Hst. cbn.
    by rewrite Hraise.
  - intros code e [s Hs] He.
    unfold try_entry, base64_b64decode. rewrite Hs, He. cbn.
    by rewrite Hraise.
Qed.

Lemma decrypt_data_short_witness :
  length (replicate 31 x00) < 32 ∧
  @decrypt_data Toy.lib (replicate 31 x00) (replicate 32 x2a) = Raise ValueError.
Proof.
  split; [cbn; lia|].
  apply (@decrypt_data_short Toy.lib (replicate 31 x00) (replicate 32 x2a)).
  cbn; lia.
Defined.

(** C9 as stated fails: a 31-byte input under a well-formed key does not
    end in the failure of a wrong key or a tampered envelope
    ([InvalidTag]), it ends in [ValueError]. *)
Lemma decrypt_data_short_not_InvalidTag :
  @decrypt_data Toy.lib (replicate 31 x00) (replicate 32 x2a) = Raise ValueError ∧
  ¬ (∀ (L : Library) (enc key : bytes),
       length enc < 32 → @decrypt_data L enc key = Raise InvalidTag).
Proof.
  split; [reflexivity|]. intros H.
  specialize (H Toy.lib (replicate 31 x00) (replicate 32 x2a)).
  discriminate H. cbn; lia.
Qed.

(** ** login and create_account *)

(** C6: [login] never changes the state, whoever asks and whatever the
    outcome; for an existing user and a password whose derived key does not
    open the stored envelope it answers "Invalid password". *)
Theorem login_read_only {L : Library} (u pw : string) (w : world) :
  (login u pw w).2 = w ∧
  (∀ a s e x,
     users w !! u = Some a →
     b64decode (salt a) = Some s →
     b64decode (encrypted_master_key a) = Some e →
     decrypt_data e (derive_key pw s 100000%N) = Raise x →
     login u pw w = (Return (false, "Invalid password", None), w)).
Proof.
  split; [apply login_state|].
  intros a s e x Hu Hs He Hd.
  rewrite (login_present _ _ _ _ Hu).
  unfold check_password, base64_b64decode. rewrite Hs, He. cbn.
  by rewrite Hd.
Qed.

Lemma login_read_only_witness :
  (@login Toy.lib "alice" "wrongpw" (Toy.alice (Toy.tape 7))).2
    = Toy.alice (Toy.tape 7) ∧
  @login Toy.lib "alice" "wrongpw" (Toy.alice (Toy.tape 7))
    = (Return (false, "Invalid password", None), Toy.alice (Toy.tape 7)).
Proof.
  destruct (@login_read_only Toy.lib "alice" "wrongpw" (Toy.alice (Toy.tape 7)))
    as [H1 H2].
  split; [exact H1|].
  eapply H2; vm_compute; reflexivity.
Defined.

(** C7: [create_account] answers "Username already exists" exactly when the
    username is in [self.users], and then the state (table, database file,
    entropy) is what it was. *)
Theorem create_account_duplicate {L : Library} (HL : LibraryLaws L)
    (u pw : string) (w : world) :
  ((create_account u pw w).1 = Return (false, "Username already exists", [])
   ↔ is_Some (users w !! u)) ∧
  (is_Some (users w !! u) →
   create_account u pw w = (Return (false, "Username already exists", []), w)).
Proof.
  split; [split|].
  - intros H. destruct (users w !! u) eqn:E; [done|].
    destruct (create_account_fresh u pw w E) as (codes & rd & t & Hc & _).
    rewrite Hc in H. discriminate H.
  - intros E. by rewrite (create_account_taken _ _ _ E).
  - apply create_account_taken.
Qed.

Lemma create_account_duplicate_witness :
  is_Some (users (Toy.alice (Toy.tape 7)) !! "alice") ∧
  @create_account Toy.lib "alice" "other" (Toy.alice (Toy.tape 7))
    = (Return (false, "Username already exists", []), Toy.alice (Toy.tape 7)).
Proof.
  assert (H : is_Some (users (Toy.alice (Toy.tape 7)) !! "alice")).
  { vm_compute. eexists. reflexivity. }
  split; [exact H|].
  apply (create_account_duplicate Toy_laws "alice" "other" (Toy.alice (Toy.tape 7))).
  exact H.
Defined.

(** C8, as the code has it: a successful [create_account] returns exactly
    10 recovery codes, each an 8-digit numeric string (nothing makes them
    distinct); the stored record has exactly 10 recovery entries, the i-th
    of which opens under the i-th code to the one master key that the
    master password unlocks. *)
Theorem create_account_recovery_codes {L : Library} (HL : LibraryLaws L)
    (u pw : string) (w : world) :
  users w !! u = None →
  ∃ codes w' a mk,
    create_account u pw w
      = (Return (true, "Account created successfully", codes), w') ∧
    length codes = 10 ∧
    Forall recovery_code_ok codes ∧
    users w' !! u = Some a ∧
    db_file w' = Some (users w') ∧
    length (recovery_data a) = 10 ∧
    Forall2 (λ code e, try_entry code e = Return (Some mk))
            codes (recovery_data a) ∧
    length mk = 32 ∧
    login u pw w' = (Return (true, "Login successful", Some mk), w').
Proof.
  intros E.
  destruct (create_account_fresh u pw w E)
    as (codes & rd & t & Hc & Hn & Hrd & Hok & Hopen).
  eexists codes, _, (created pw w rd), (next_bytes 32 (advance 16 w)).
  split; [exact Hc|]. cbn.
  split_and!; [done|done|apply lookup_insert_eq|done|done|done| |].
  - apply length_next_bytes.
  - erewrite login_present by (cbn; apply lookup_insert_eq).
    unfold created.
    by rewrite check_password_sealed by apply length_next_bytes.
Qed.

Lemma create_account_recovery_codes_witness :
  users (Toy.fresh (Toy.tape 7)) !! "alice" = None ∧
  ∃ codes w' a mk,
    @create_account Toy.lib "alice" "pw1" (Toy.fresh (Toy.tape 7))
      = (Return (true, "Account created successfully", codes), w') ∧
    length codes = 10 ∧
    Forall recovery_code_ok codes ∧
    users w' !! "alice" = Some a ∧
    db_file w' = Some (users w') ∧
    length (recovery_data a) = 10 ∧
    Forall2 (λ code e, @try_entry Toy.lib code e = Return (Some mk))
            codes (recovery_data a) ∧
    length mk = 32 ∧
    @login Toy.lib "alice" "pw1" w'
      = (Return (true, "Login successful", Some mk), w').
Proof.
  split; [reflexivity|].
  apply (create_account_recovery_codes Toy_laws). reflexivity.
Defined.

(** C8 as stated fails: when the generator repeats itself the ten codes
    are not pairwise distinct.  On a tape of zero bytes
    [create_account("alice", "pw1")] succeeds and returns ten times
    "00000000". *)
Lemma create_account_codes_collide :
  (@create_account Toy.lib "alice" "pw1" (Toy.fresh Toy.zeros)).1
    = Return (true, "Account created successfully", replicate 10 "00000000") ∧
  ¬ NoDup (replicate 10 "00000000").
Proof.
  split; [by vm_compute|].
  intros H. apply NoDup_cons in H as [H _]. apply H. by left.
Qed.

(** ** The vault: add_password, get_password and recover_account *)

(** C5: for an existing account and its master password (so that [login]
    succeeds, with the 32-byte master key of the data model),
    [add_password] succeeds and a following [get_password] for the same
    service returns exactly the password that was added. *)
Theorem get_password_after_add {L : Library} (HL : LibraryLaws L)
    (u pw svc p : string) (w : world) (m : string) (mk : bytes) :
  login u pw w = (Return (true, m, Some mk), w) →
  length mk = 32 →
  ∃ w',
    add_password u pw svc p w
      = (Return (true, "Password for " +:+ svc +:+ " added successfully"), w') ∧
    get_password u pw svc w'
      = (Return (true, "Password for " +:+ svc, Some p), w').
Proof.
  intros Hlogin Hlen. apply AES_key_size_32 in Hlen.
  destruct (login_success_inv _ _ _ _ _ _ Hlogin) as (a & Hu & Hc).
  by eapply add_then_get.
Qed.

Lemma get_password_after_add_witness :
  ∃ w',
    @add_password Toy.lib "alice" "pw1" "github" "s3cr3t" (Toy.alice (Toy.tape 7))
      = (Return (true, "Password for github added successfully"), w') ∧
    @get_password Toy.lib "alice" "pw1" "github" w'
      = (Return (true, "Password for github", Some "s3cr3t"), w').
Proof.
  eapply (get_password_after_add Toy_laws "alice" "pw1" "github" "s3cr3t"
            (Toy.alice (Toy.tape 7))).
  - vm_compute. reflexivity.
  - vm_compute. reflexivity.
Defined.

(** C4: when the recovery code opens none of the account's recovery
    entries, [recover_account] answers "Invalid recovery code" and the
    state (account record, table, database file, entropy) is what it was:
    nothing was written, nothing was saved. *)
Theorem recover_account_invalid_code {L : Library}
    (u c npw : string) (w : world) (a : user_data) :
  users w !! u = Some a →
  Forall (λ e, try_entry c e = Return None) (recovery_data a) →
  recover_account u c npw w
    = (Return (false, "Invalid recovery code", None), w).
Proof.
  intros Hu Hall. rewrite (recover_account_present _ _ _ _ _ Hu).
  by apply recover_scan_all_rejected.
Qed.

Lemma recover_account_invalid_code_witness :
  ∃ a,
    users (Toy.alice (Toy.tape 7)) !! "alice" = Some a ∧
    Forall (λ e, @try_entry Toy.lib "99999999" e = Return None) (recovery_data a) ∧
    @recover_account Toy.lib "alice" "99999999" "newpw" (Toy.alice (Toy.tape 7))
      = (Return (false, "Invalid recovery code", None), Toy.alice (Toy.tape 7)).
Proof.
  eexists. split; [vm_compute; reflexivity|].
  assert (H : Forall (λ e, @try_entry Toy.lib "99999999" e = Return None)
                (recovery_data
                   (default (UserData EmptyString EmptyString ∅ [])
                      (users (Toy.alice (Toy.tape 7)) !! "alice")))).
  { vm_compute. repeat (constructor; [reflexivity|]). constructor. }
  split; [exact H|].
  eapply (@recover_account_invalid_code Toy.lib "alice" "99999999" "newpw").
  - vm_compute. reflexivity.
  - exact H.
Defined.

(** C2: a successful [recover_account] replaces the active salt and the
    master-key envelope and nothing else of the vault.  For an account
    whose recovery entries escrow the master key [mk0] that the old master
    password unlocks, the key recovered is [mk0], [login] with the new
    password returns [mk0], the stored service passwords and the other
    accounts are untouched, and whatever [get_password] retrieved under
    the old password before the recovery it retrieves under the new
    password afterwards. *)
Theorem recover_account_preserves_vault {L : Library} (HL : LibraryLaws L)
    (u c npw oldpw : string) (w w' : world) (a : user_data)
    (m0 m : string) (mk0 : bytes) (r : option bytes) :
  users w !! u = Some a →
  login u oldpw w = (Return (true, m0, Some mk0), w) →
  (∀ e k, e ∈ recovery_data a → try_entry c e = Return (Some k) → k = mk0) →
  recover_account u c npw w = (Return (true, m, r), w') →
  r = Some mk0 ∧
  login u npw w' = (Return (true, "Login successful", Some mk0), w') ∧
  (∃ a', users w' !! u = Some a' ∧
         passwords a' = passwords a ∧
         salt a' = b64encode (next_bytes 16 w) ∧
         encrypted_master_key a' =
           b64encode (seal (derive_key npw (next_bytes 16 w) 100000%N)
                           (next_bytes 16 (advance 16 w)) mk0)) ∧
  (∀ v, v ≠ u → users w' !! v = users w !! v) ∧
  db_file w' = Some (users w') ∧
  (∀ svc msg p,
     get_password u oldpw svc w = (Return (true, msg, Some p), w) →
     get_password u npw svc w' = (Return (true, msg, Some p), w')).
Proof.
  intros Hu Hlogin Hesc Hrec.
  destruct (recover_account_success_inv _ _ _ _ _ _ _ _ Hu Hrec)
    as (l1 & e & l2 & mk & Hl & Hl1 & He & -> & -> & ->).
  assert (mk = mk0) as ->.
  { apply (Hesc e); [|done]. rewrite Hl. set_solver. }
  destruct (login_success_inv _ _ _ _ _ _ Hlogin) as (a0 & Hu0 & Hc).
  assert (a0 = a) as -> by congruence.
  split_and!.
  - done.
  - apply login_recovered.
  - eexists. split; [apply lookup_recovered|done].
  - intros v Hv. unfold recovered. cbn. by apply lookup_insert_ne.
  - done.
  - intros svc msg p.
    rewrite (get_password_present _ _ _ _ _ Hu), Hc.
    rewrite (get_password_present _ _ _ _ _ (lookup_recovered _ _ _ _ _ _)).
    rewrite check_password_sealed by apply length_next_bytes. cbn.
    by intros [= ->].
Qed.

(** C3, as the code has it: after a successful [recover_account] with the
    code [c], (1) the first entry that [c] opens has left the recovery list
    and the others are kept in order; (2) [login] with the new password
    succeeds and returns the recovered master key; (3) [login] with the old
    master password fails with "Invalid password": the envelope was sealed
    anew under the key of the new password and a fresh salt, and a library
    that refuses wrong keys refuses the old password's key, whenever that
    key is another than the new password's; (4) a second [recover_account]
    with [c] answers "Invalid recovery code" exactly when [c] opens none of
    the entries that followed the one removed. *)
Theorem recover_account_consumes_entry {L : Library} (HL : LibraryLaws L)
    (u c npw : string) (w w' : world) (a : user_data)
    (m : string) (r : option bytes) :
  users w !! u = Some a →
  recover_account u c npw w = (Return (true, m, r), w') →
  ∃ l1 e l2 mk a',
    recovery_data a = l1 ++ e :: l2 ∧
    Forall (λ e, try_entry c e = Return None) l1 ∧
    try_entry c e = Return (Some mk) ∧
    r = Some mk ∧
    users w' !! u = Some a' ∧
    recovery_data a' = l1 ++ l2 ∧
    login u npw w' = (Return (true, "Login successful", Some mk), w') ∧
    (WrongKeyRejected L →
     ∀ oldpw,
       derive_key oldpw (next_bytes 16 w) 100000%N
         ≠ derive_key npw (next_bytes 16 w) 100000%N →
       login u oldpw w' = (Return (false, "Invalid password", None), w')) ∧
    (∀ npw',
       recover_account u c npw' w'
         = (Return (false, "Invalid recovery code", None), w') ↔
       Forall (λ e, try_entry c e = Return None) l2).
Proof.
  intros Hu Hrec.
  destruct (recover_account_success_inv _ _ _ _ _ _ _ _ Hu Hrec)
    as (l1 & e & l2 & mk & Hl & Hl1 & He & -> & -> & ->).
  pose proof (lookup_recovered u npw a mk (l1 ++ l2) w) as Hu'.
  eexists l1, e, l2, mk, _. split_and!; try done.
  - apply login_recovered.
  - intros HW oldpw Hne. rewrite (login_present _ _ _ _ Hu').
    unfold check_password, base64_b64decode. cbn.
    rewrite !b64decode_b64encode. cbn.
    by rewrite decrypt_data_other_key by (done || apply length_next_bytes).
  - intros npw'. split.
    + intros H.
      destruct (recover_account_cases u c npw' _ _ Hu')
        as [[x Hx]|[[Hall _]|(k1 & e' & k2 & mk' & _ & _ & _ & Hx)]];
        [by rewrite Hx in H| |by rewrite Hx in H].
      cbn in Hall. by apply Forall_app in Hall as [_ ?].
    + intros Hl2. rewrite (recover_account_present _ _ _ _ _ Hu'). cbn.
      apply recover_scan_all_rejected. by apply Forall_app.
Qed.

Lemma recover_account_preserves_vault_witness :
  @login Toy.lib "alice" "newpw"
     (Toy.alice_recovered (Toy.tape 7) "12345678" "newpw")
  = (Return (true, "Login successful", Some (Toy.alice_master_key (Toy.tape 7))),
     Toy.alice_recovered (Toy.tape 7) "12345678" "newpw").
Proof.
  assert (H1 : users (Toy.alice (Toy.tape 7)) !! "alice"
               = Some (Toy.alice_record (Toy.tape 7))) by (vm_compute; reflexivity).
  assert (H2 : @login Toy.lib "alice" "pw1" (Toy.alice (Toy.tape 7))
               = (Return (true, "Login successful",
                          Some (Toy.alice_master_key (Toy.tape 7))),
                  Toy.alice (Toy.tape 7))) by (vm_compute; reflexivity).
  assert (H3 : ∀ e k, e ∈ recovery_data (Toy.alice_record (Toy.tape 7)) →
                 @try_entry Toy.lib "12345678" e = Return (Some k) →
                 k = Toy.alice_master_key (Toy.tape 7)).
  { assert (HF : Forall (λ e, ∀ k, @try_entry Toy.lib "12345678" e = Return (Some k) →
                                k = Toy.alice_master_key (Toy.tape 7))
                     (recovery_data (Toy.alice_record (Toy.tape 7)))).
    { vm_compute.
      repeat (constructor; [let H := fresh in intros k H; congruence|]).
      constructor. }
    intros e k Hin. rewrite Forall_forall in HF. by apply HF. }
  assert (H4 : @recover_account Toy.lib "alice" "12345678" "newpw"
                 (Toy.alice (Toy.tape 7))
               = (Return (true, "Account recovered successfully",
                          Some (Toy.alice_master_key (Toy.tape 7))),
                  Toy.alice_recovered (Toy.tape 7) "12345678" "newpw"))
    by (vm_compute; reflexivity).
  exact (proj1 (proj2 (recover_account_preserves_vault Toy_laws
                         "alice" "12345678" "newpw" "pw1" _ _ _ _ _ _ _
                         H1 H2 H3 H4))).
Defined.

Lemma recover_account_consumes_entry_witness :
  ∃ e l2 a',
    recovery_data ToyAuth.alice_record = e :: l2 ∧
    users ToyAuth.alice_recovered !! "alice" = Some a' ∧
    recovery_data a' = l2 ∧
    Forall (λ e, @try_entry ToyAuth.lib "78901234" e = Return None) l2 ∧
    @login ToyAuth.lib "alice" "newpw" ToyAuth.alice_recovered
      = (Return (true, "Login successful", Some ToyAuth.alice_master_key),
         ToyAuth.alice_recovered) ∧
    @login ToyAuth.lib "alice" "pw1" ToyAuth.alice_recovered
      = (Return (false, "Invalid password", None), ToyAuth.alice_recovered) ∧
    @recover_account ToyAuth.lib "alice" "78901234" "again"
       ToyAuth.alice_recovered
      = (Return (false, "Invalid recovery code", None),
         ToyAuth.alice_recovered).
Proof.
  assert (H1 : users ToyAuth.alice !! "alice" = Some ToyAuth.alice_record)
    by (vm_compute; reflexivity).
  assert (H4 : @recover_account ToyAuth.lib "alice" "78901234" "newpw"
                 ToyAuth.alice
               = (Return (true, "Account recovered successfully",
                          Some ToyAuth.alice_master_key),
                  ToyAuth.alice_recovered))
    by (vm_compute; reflexivity).
  assert (Hne : @derive_key ToyAuth.lib "pw1" (next_bytes 16 ToyAuth.alice)
                    100000%N
                ≠ @derive_key ToyAuth.lib "newpw" (next_bytes 16 ToyAuth.alice)
                    100000%N)
    by (vm_compute; intros H; discriminate H).
  destruct (recover_account_consumes_entry ToyAuth_laws _ _ _ _ _ _ _ _ H1 H4)
    as (l1 & e & l2 & mk & a' & Hl & Hl1 & He & Hr & Hu & Hrd & Hnew & Hold
        & Hagain).
  injection Hr as <-.
  destruct l1 as [|y l1].
  - assert (Hl2 : Forall (λ e, @try_entry ToyAuth.lib "78901234" e = Return None)
                    l2).
    { vm_compute in Hl. injection Hl as <- <-.
      repeat (constructor; [vm_compute; reflexivity|]). constructor. }
    exists e, l2, a'.
    exact (conj Hl (conj Hu (conj Hrd (conj Hl2 (conj Hnew
             (conj (Hold ToyAuth_wrong_key "pw1" Hne)
                   (proj2 (Hagain "again") Hl2))))))).
  - exfalso. vm_compute in Hl. injection Hl as <- _.
    inversion Hl1 as [|? ? Hy _]; subst. vm_compute in Hy. discriminate Hy.
Defined.

(** C3 as stated fails: the codes of an account need not differ, so that a
    code can open a second entry once the first is gone.  On a tape of zero
    bytes every code is "00000000", and a second [recover_account] with the
    code that was just used succeeds. *)
Lemma recover_account_not_one_shot :
  ∃ mk w2 w3,
    Toy.alice_codes Toy.zeros = replicate 10 "00000000" ∧
    @recover_account Toy.lib "alice" "00000000" "newpw" (Toy.alice Toy.zeros)
      = (Return (true, "Account recovered successfully", Some mk), w2) ∧
    @recover_account Toy.lib "alice" "00000000" "newpw2" w2
      = (Return (true, "Account recovered successfully", Some mk), w3).
Proof.
  eexists _, _, _. split_and!; vm_compute; reflexivity.
Qed.

(** ** Further properties of the methods *)

Section Effects.
Context {L : Library}.

Lemma check_password_true_inv a pw m k :
  check_password a pw = Return (true, m, k) →
  m = "Login successful" ∧ ∃ mk, k = Some mk.
Proof.
  unfold check_password, base64_b64decode.
  destruct (b64decode (salt a)); cbn; [|done].
  destruct (b64decode (encrypted_master_key a)); cbn; [|done].
  destruct (decrypt_data _ _); intros [= <- <-]; eauto.
Qed.

Lemma check_password_false_inv a pw m k :
  check_password a pw = Return (false, m, k) →
  m = "Invalid password" ∧ k = None.
Proof.
  unfold check_password, base64_b64decode.
  destruct (b64decode (salt a)); cbn; [|done].
  destruct (b64decode (encrypted_master_key a)); cbn; [|done].
  destruct (decrypt_data _ _); by intros [= <- <-].
Qed.

Lemma add_password_absent u pw svc p w :
  users w !! u = None →
  add_password u pw svc p w = (Return (false, "User not found"), w).
Proof.
  intros E. unfold add_password. run. rewrite E.
  destruct (decide (is_Some None)) as [[? ?]|]; done.
Qed.

Lemma add_password_raise u pw svc p w a e :
  users w !! u = Some a →
  check_password a pw = Raise e →
  add_password u pw svc p w = (Raise e, w).
Proof.
  intros E Hc. unfold add_password. run. rewrite E.
  destruct (decide (is_Some (Some a))) as [_|n]; [|by destruct n].
  by rewrite (login_present _ _ _ _ E), Hc.
Qed.

Lemma add_password_refused u pw svc p w a m k :
  users w !! u = Some a →
  check_password a pw = Return (false, m, k) →
  add_password u pw svc p w = (Return (false, m), w).
Proof.
  intros E Hc. unfold add_password. run. rewrite E.
  destruct (decide (is_Some (Some a))) as [_|n]; [|by destruct n].
  by rewrite (login_present _ _ _ _ E), Hc.
Qed.

Lemma add_password_bad_key u pw svc p w a m mk :
  users w !! u = Some a →
  check_password a pw = Return (true, m, Some mk) →
  AES_key_size mk = false →
  add_password u pw svc p w = (Raise ValueError, advance 16 w).
Proof.
  intros E Hc Hk. unfold add_password. run. rewrite E.
  destruct (decide (is_Some (Some a))) as [_|n]; [|by destruct n].
  rewrite (login_present _ _ _ _ E), Hc. cbn.
  by rewrite (encrypt_data_bad_key _ _ _ Hk).
Qed.

(** What [add_password] can do to the table and the file: leave both, or
    write the account with one more stored password and save. *)
Lemma add_password_effect u pw svc p w :
  (users (add_password u pw svc p w).2 = users w ∧
   db_file (add_password u pw svc p w).2 = db_file w ∧
   ∀ m, (add_password u pw svc p w).1 ≠ Return (true, m))
  ∨ (∃ a m mk,
       users w !! u = Some a ∧
       check_password a pw = Return (true, m, Some mk) ∧
       AES_key_size mk = true ∧
       add_password u pw svc p w =
         (Return (true, "Password for " +:+ svc +:+ " added successfully"),
          let us := <[u := UserData (salt a) (encrypted_master_key a)
                        (<[svc := b64encode (seal mk (next_bytes 16 w) (str_encode p))]>
                           (passwords a))
                        (recovery_data a)]> (users w) in
          World us (Some us) (entropy (advance 16 w)))).
Proof.
  destruct (users w !! u) as [a|] eqn:E.
  - destruct (check_password a pw) as [[[[] m] k]|e] eqn:Hc.
    + destruct (check_password_true_inv _ _ _ _ Hc) as (_ & mk & ->).
      destruct (AES_key_size mk) eqn:Hk.
      * right. exists a, m, mk. split_and!; [done..|].
        by apply (add_password_run _ _ _ _ _ _ m).
      * left. by rewrite (add_password_bad_key _ _ _ _ _ _ _ _ E Hc Hk).
    + left. by rewrite (add_password_refused _ _ _ _ _ _ _ _ E Hc).
    + left. by rewrite (add_password_raise _ _ _ _ _ _ _ E Hc).
  - left. by rewrite (add_password_absent _ _ _ _ _ E).
Qed.

End Effects.

Section Service.
Context {L : Library} {HL : LibraryLaws L}.

Lemma try_entry_decodes c e :
  entry_decodes e → ∃ o, try_entry c e = Return o.
Proof.
  intros [[s Hs] [k Hk]]. unfold try_entry, base64_b64decode.
  rewrite Hs, Hk. cbn. destruct (decrypt_data _ _); eauto.
Qed.

Lemma try_entry_Return_decodes c e o :
  try_entry c e = Return o → entry_decodes e.
Proof.
  unfold try_entry, base64_b64decode, entry_decodes.
  destruct (b64decode (recovery_salt e)); cbn; [|done].
  destruct (b64decode (encrypted_key e)); cbn; [|done].
  eauto.
Qed.

Lemma recover_scan_first_match u c npw a w l1 e l2 mk :
  users w !! u = Some a →
  Forall (λ e, try_entry c e = Return None) l1 →
  try_entry c e = Return (Some mk) →
  e ∈ recovery_data a →
  ∃ rest,
    recover_scan u c npw (l1 ++ e :: l2) w =
      (Return (true, "Account recovered successfully", Some mk),
       recovered u npw a mk rest w).
Proof.
  intros Hu Hl1 He Hin.
  destruct (list_remove_elem_of e (recovery_data a) Hin) as [rest Hr].
  exists rest. induction Hl1 as [|y k Hy _ IH]; cbn.
  - by apply recover_scan_match.
  - by rewrite (recover_scan_reject _ _ _ _ _ _ Hy).
Qed.

(** With entries that all decode, the scan cannot raise. *)
Lemma recover_account_decodes u c npw a w :
  users w !! u = Some a →
  Forall entry_decodes (recovery_data a) →
  (Forall (λ e, try_entry c e = Return None) (recovery_data a) ∧
   recover_account u c npw w =
     (Return (false, "Invalid recovery code", None), w))
  ∨ (∃ l1 e l2 mk,
       recovery_data a = l1 ++ e :: l2 ∧
       Forall (λ e, try_entry c e = Return None) l1 ∧
       try_entry c e = Return (Some mk) ∧
       recover_account u c npw w =
         (Return (true, "Account recovered successfully", Some mk),
          recovered u npw a mk (l1 ++ l2) w)).
Proof.
  intros Hu Hdec.
  destruct (recover_account_cases u c npw a w Hu)
    as [[x Hx]|[H|(l1 & e & l2 & mk & Hl & Hl1 & He & Hx)]];
    [exfalso|by left|right; by exists l1, e, l2, mk].
  rewrite (recover_account_present _ _ _ _ _ Hu) in Hx.
  assert (Hcase : Forall (λ e, try_entry c e = Return None) (recovery_data a)
                  ∨ ∃ l1 e l2 mk, recovery_data a = l1 ++ e :: l2 ∧
                      Forall (λ e, try_entry c e = Return None) l1 ∧
                      try_entry c e = Return (Some mk)).
  { clear Hx. induction Hdec as [|e es He _ IH]; [by left|].
    destruct (try_entry_decodes c e He) as [[mk|] Ho].
    - right. by exists [], e, es, mk.
    - destruct IH as [IH|(l1 & e' & l2 & mk & -> & Hl1 & He')].
      + left. by constructor.
      + right. exists (e :: l1), e', l2, mk. split_and!; [done| |done].
        by constructor. }
  destruct Hcase as [Hall|(l1 & e & l2 & mk & Hl & Hl1 & He)].
  - by rewrite recover_scan_all_rejected in Hx.
  - destruct (recover_scan_first_match u c npw a w l1 e l2 mk Hu Hl1 He)
      as [rest Hr]; [rewrite Hl; set_solver|].
    rewrite Hl, Hr in Hx. done.
Qed.

End Service.

Section Decodable.
Context {L : Library} {HL : LibraryLaws L}.

Lemma store_decodes_same w w' :
  users w' = users w → store_decodes w → store_decodes w'.
Proof. unfold store_decodes. by intros ->. Qed.

Lemma store_decodes_insert u a w t f :
  record_decodes a → store_decodes w →
  store_decodes (World (<[u := a]> (users w)) f t).
Proof. intros Ha Hw. by apply map_Forall_insert_2. Qed.

Lemma is_Some_b64 b : is_Some (b64decode (b64encode b)).
Proof. rewrite b64decode_b64encode. eauto. Qed.

Lemma store_decodes_empty w : users w = ∅ → store_decodes w.
Proof. unfold store_decodes. intros ->. apply map_Forall_empty. Qed.

Lemma create_account_decodes u pw w :
  store_decodes w → store_decodes (create_account u pw w).2.
Proof.
  intros Hw. destruct (users w !! u) as [a|] eqn:E.
  - by rewrite create_account_taken by by rewrite E.
  - destruct (create_account_fresh u pw w E)
      as (codes & rd & t & -> & _ & _ & _ & Hopen).
    cbn. apply store_decodes_insert; [|done].
    unfold created. split_and!; cbn; [apply is_Some_b64..| |].
    + apply Forall_forall. intros e He.
      apply list_elem_of_lookup in He as [i Hi].
      destruct (Forall2_lookup_r _ _ _ _ _ Hopen Hi) as (code & _ & Ho).
      by eapply try_entry_Return_decodes.
    + apply map_Forall_empty.
Qed.

End Decodable.

(** ** The console *)

Arguments print_codes : simpl never.
Arguments init : simpl never.
Arguments menu_loop : simpl never.

Section ConsoleRules.
Context {L : Library}.

Lemma wp_ret {A} (a : A) Q c : Q (Done a) c → wp (io_ret a) Q c.
Proof. done. Qed.

Lemma wp_bind {A B} (m : IO A) (k : A → IO B) Q c :
  wp m (λ r c', match r with
                | Done a => wp (k a) Q c'
                | Fault f => Q (Fault f) c'
                end) c →
  wp (io_bind m k) Q c.
Proof. unfold wp, io_bind. by destruct (m c) as [[a|f] c']. Qed.

Lemma wp_print s Q c :
  Q (Done tt) (Console (stdin c) (stdout c ++ [s +:+ nl]) (manager c)) →
  wp (print s) Q c.
Proof. done. Qed.

Lemma wp_input prompt Q c :
  (stdin c = [] →
   Q (Fault EOFError) (Console [] (stdout c ++ [prompt]) (manager c))) →
  (∀ line rest, stdin c = line :: rest →
   Q (Done line) (Console rest (stdout c ++ [prompt]) (manager c))) →
  wp (input prompt) Q c.
Proof.
  unfold wp, input. intros H0 H1. destruct (stdin c); [by apply H0|by apply H1].
Qed.

Lemma wp_call {A} (m : M A) Q c :
  (∀ a w, m (manager c) = (Return a, w) →
   Q (Done a) (Console (stdin c) (stdout c) w)) →
  (∀ e w, m (manager c) = (Raise e, w) →
   Q (Fault (Uncaught e)) (Console (stdin c) (stdout c) w)) →
  wp (call m) Q c.
Proof.
  unfold wp, call. intros H0 H1.
  destruct (m (manager c)) as [[a|e] w]; [by apply H0|by apply H1].
Qed.

Lemma print_codes_run i codes c :
  print_codes i codes c =
  (Done tt, Console (stdin c) (stdout c ++ numbered i codes) (manager c)).
Proof.
  revert i c. induction codes as [|code codes IH]; intros i c.
  - destruct c. unfold print_codes, io_ret. cbn. by rewrite app_nil_r.
  - change (print_codes i (code :: codes)) with
      (print (pretty i +:+ ". " +:+ code) >>+ print_codes (S i) codes).
    unfold io_bind, print. rewrite IH. cbn. by rewrite <- app_assoc.
Qed.

Lemma wp_print_codes i codes Q c :
  Q (Done tt) (Console (stdin c) (stdout c ++ numbered i codes) (manager c)) →
  wp (print_codes i codes) Q c.
Proof. unfold wp. by rewrite print_codes_run. Qed.

End ConsoleRules.

Section Sessions.
Context {L : Library} {HL : LibraryLaws L}.

Lemma wp_input_cons prompt Q c line rest :
  stdin c = line :: rest →
  Q (Done line) (Console rest (stdout c ++ [prompt]) (manager c)) →
  wp (input prompt) Q c.
Proof. unfold wp, input. by intros ->. Qed.

Lemma wp_call_eq {A} (m : M A) Q c a w :
  m (manager c) = (Return a, w) →
  Q (Done a) (Console (stdin c) (stdout c) w) →
  wp (call m) Q c.
Proof. unfold wp, call. by intros ->. Qed.

Ltac wp_read :=
  apply wp_bind; eapply wp_input_cons; [reflexivity|]; cbn [stdin stdout manager].
Ltac wp_write :=
  apply wp_bind, wp_print; cbn [stdin stdout manager].
Ltac wp_turn :=
  match goal with
  | |- wp (menu_loop (S ?n)) _ _ =>
      change (menu_loop (S n)) with (menu_turn (menu_loop n)); unfold menu_turn
  end.

(** One session at the console: create an account, store a password,
    ask for it back, leave. *)
Lemma session_post u pw svc p rest w :
  default ∅ (db_file w) !! u = None →
  wp (test_secure_manager
        (S (length (["1"; u; pw; "3"; u; pw; svc; p; "4"; u; pw; svc; "6"] ++ rest))))
     (λ r c', r = Done tt ∧ stdin c' = rest ∧
              ∃ out, stdout c' =
                out ++ [(("Password for " +:+ svc) +:+ ": " +:+ p) +:+ nl;
                        nl +:+ "Enter your choice: ";
                        "Exiting..." +:+ nl])
     (Console (["1"; u; pw; "3"; u; pw; svc; p; "4"; u; pw; svc; "6"] ++ rest) [] w).
Proof.
  intros E.
  set (w0 := World (default ∅ (db_file w)) (db_file w) (entropy w)).
  destruct (create_account_fresh u pw w0 E) as (codes & rd & t & Hc & _).
  destruct (created_account_add_then_get u pw svc p w0 codes _ E Hc)
    as (w2 & Ha & Hg).
  unfold test_secure_manager.
  apply wp_bind. apply (wp_call_eq _ _ _ tt w0); [done|].
  cbn [stdin stdout manager]. do 7 wp_write.
  cbn [length app]. wp_turn.
  wp_read. rewrite decide_True by done. do 2 wp_read.
  apply wp_bind. eapply wp_call_eq; [exact Hc|]. cbn [stdin stdout manager].
  wp_write. apply wp_bind. wp_write. apply wp_print_codes.
  cbn [stdin stdout manager]. wp_turn.
  wp_read. rewrite decide_False, decide_False, decide_True by done.
  do 4 wp_read.
  apply wp_bind. eapply wp_call_eq; [exact Ha|]. cbn [stdin stdout manager].
  wp_write. wp_turn.
  wp_read. rewrite !decide_False, decide_True by done.
  do 3 wp_read.
  apply wp_bind. eapply wp_call_eq; [exact Hg|]. cbn [stdin stdout manager].
  wp_write. wp_turn.
  wp_read. rewrite !decide_False, decide_True by done.
  apply wp_print. cbn [stdin stdout manager].
  split_and!; [done..|].
  match goal with |- ∃ out, ((?X ++ _) ++ _) ++ _ = _ => exists X end.
  by rewrite <- !app_assoc.
Qed.

End Sessions.

Section ConsoleBound.
Context {L : Library}.

Ltac wp_plain :=
  repeat first
    [ apply wp_bind
    | apply wp_print
    | apply wp_print_codes
    | apply wp_ret
    | apply wp_input;
        [ intros _
        | let line := fresh "line" in let rest := fresh "rest" in
          let E := fresh "E" in
          intros line rest E; cbn in E; subst ]
    | apply wp_call; intros ? ? _
    | progress cbn [stdin stdout manager]
    | match goal with
      | |- context [decide (?x = ?y)] => destruct (decide (x = y))
      | x : _ * _ |- _ => destruct x
      | b : bool |- context [if ?b then _ else _] => destruct b
      end ].

(** A loop with more turns than there are lines left is never cut off,
    and without a line "6" it cannot leave by [break]. *)
Lemma menu_loop_bounded n c l0 :
  length (stdin c) < n →
  stdin c `suffix_of` l0 →
  wp (menu_loop n)
     (λ r c', r ≠ Fault Running ∧ ("6" ∉ l0 → r ≠ Done tt)) c.
Proof.
  revert c. induction n as [|n IH]; intros [l o w] Hlen Hsuf; cbn in *.
  { lia. }
  change (menu_loop (S n)) with (menu_turn (menu_loop n)).
  unfold menu_turn. wp_plain.
  all: try (split; done).
  all: try (apply IH; cbn in *; [lia|eauto 8 using suffix_cons_l]).
  split; [done|].
  intros Hn _. apply Hn. destruct Hsuf as [k ->]. set_solver.
Qed.

(** The rest of the loop matters to a turn only through its result. *)
Lemma menu_turn_ext (k1 k2 : IO unit) c :
  (∀ c', (k1 c').1 ≠ Fault Running → k2 c' = k1 c') →
  (menu_turn k1 c).1 ≠ Fault Running →
  menu_turn k2 c = menu_turn k1 c.
Proof.
  intros Hk. unfold menu_turn, io_bind, input, call, print, io_ret.
  rewrite ?print_codes_run.
  repeat first
    [ progress cbn [stdin stdout manager fst snd]
    | rewrite print_codes_run
    | match goal with
      | |- context [match stdin ?c with _ => _ end] => destruct (stdin c)
      | |- context [match ?l with [] => _ | _ :: _ => _ end] => destruct l
      | |- context [decide (?x = ?y)] => destruct (decide (x = y))
      | |- context [match ?m ?w with _ => _ end] =>
          destruct (m w) as [[[]|?] ?]
      | |- context [if ?b then _ else _] => destruct b
      | |- context [let (_, _) := ?x in _] => destruct x
      end ];
  try done; try (intros H; by apply Hk).
Qed.

Lemma menu_loop_more n c :
  (menu_loop n c).1 ≠ Fault Running → menu_loop (S n) c = menu_loop n c.
Proof.
  revert c. induction n as [|n IH]; intros c H; [done|].
  change (menu_loop (S (S n))) with (menu_turn (menu_loop (S n))).
  change (menu_loop (S n)) with (menu_turn (menu_loop n)) in H |- * at 2.
  by apply menu_turn_ext.
Qed.

Lemma menu_loop_enough n m c :
  n ≤ m → (menu_loop n c).1 ≠ Fault Running → menu_loop m c = menu_loop n c.
Proof.
  induction 1 as [|m _ IH]; intros H; [done|].
  rewrite <- (IH H). apply menu_loop_more. by rewrite (IH H).
Qed.

End ConsoleBound.

Section ConsoleRuns.
Context {L : Library}.

Lemma test_secure_manager_run steps lines w :
  test_secure_manager steps (Console lines [] w) =
  menu_loop steps
    (Console lines
       ["=== Secure Password Manager ===" +:+ nl; "1. Create Account" +:+ nl;
        "2. Login" +:+ nl; "3. Add Password" +:+ nl; "4. Get Password" +:+ nl;
        "5. Recover Account" +:+ nl; "6. Exit" +:+ nl]
       (init w).2).
Proof. reflexivity. Qed.

End ConsoleRuns.

Lemma ToyStrict_laws : LibraryLaws ToyStrict.lib.
Proof.
  split; simpl; intros.
  - apply Toy_length_pad.
  - reflexivity.
  - apply Toy_length_pad.
  - by rewrite decide_True.
  - by rewrite String.string_of_list_byte_of_string.
  - by rewrite String.list_byte_of_string_of_list_byte.
Qed.

(** ** What the methods keep, refuse and never do *)

(** X1: a method that answers [True] has saved: when [create_account],
    [add_password] or [recover_account] reports success, the database file
    holds the table as it now is.  And when [create_account] or
    [add_password] answers [False], nothing was written: the state is what
    it was. *)
Theorem success_is_saved {L : Library} (HL : LibraryLaws L)
    (u pw svc p c npw : string) (w : world) :
  (∀ m codes w',
     create_account u pw w = (Return (true, m, codes), w') →
     db_file w' = Some (users w')) ∧
  (∀ m w',
     add_password u pw svc p w = (Return (true, m), w') →
     db_file w' = Some (users w')) ∧
  (∀ m k w',
     recover_account u c npw w = (Return (true, m, k), w') →
     db_file w' = Some (users w')) ∧
  (∀ m codes w',
     create_account u pw w = (Return (false, m, codes), w') → w' = w) ∧
  (∀ m w',
     add_password u pw svc p w = (Return (false, m), w') → w' = w).
Proof.
  split_and!.
  - intros m codes w' H. destruct (users w !! u) as [a|] eqn:E.
    + by rewrite create_account_taken in H by by rewrite E.
    + destruct (create_account_fresh u pw w E) as (codes' & rd & t & Hc & _).
      rewrite Hc in H. by injection H as _ _ <-.
  - intros m w' H.
    destruct (add_password_effect u pw svc p w)
      as [(_ & _ & Hn)|(a & m' & mk & _ & _ & _ & Hr)].
    + exfalso. apply (Hn m). by rewrite H.
    + rewrite Hr in H. by injection H as _ <-.
  - intros m k w' H. destruct (users w !! u) as [a|] eqn:E.
    + destruct (recover_account_success_inv _ _ _ _ _ _ _ _ E H)
        as (l1 & e & l2 & mk & _ & _ & _ & _ & _ & ->).
      done.
    + by rewrite recover_account_absent in H.
  - intros m codes w' H. destruct (users w !! u) as [a|] eqn:E.
    + rewrite create_account_taken in H by (by rewrite E). by injection H.
    + destruct (create_account_fresh u pw w E) as (codes' & rd & t & Hc & _).
      by rewrite Hc in H.
  - intros m w' H. destruct (users w !! u) as [a|] eqn:E.
    + destruct (check_password a pw) as [[[[] m'] k]|e] eqn:Hc.
      * destruct (check_password_true_inv _ _ _ _ Hc) as (_ & mk & ->).
        destruct (AES_key_size mk) eqn:Hk.
        -- by erewrite add_password_run in H by done.
        -- by rewrite (add_password_bad_key _ _ _ _ _ _ _ _ E Hc Hk) in H.
      * rewrite (add_password_refused _ _ _ _ _ _ _ _ E Hc) in H.
        by injection H.
      * by rewrite (add_password_raise _ _ _ _ _ _ _ E Hc) in H.
    + rewrite (add_password_absent _ _ _ _ _ E) in H. by injection H.
Qed.

Lemma success_is_saved_witness :
  db_file (@add_password Toy.lib "alice" "pw1" "github" "s3cr3t"
             (Toy.alice (Toy.tape 7))).2
  = Some (users (@add_password Toy.lib "alice" "pw1" "github" "s3cr3t"
                   (Toy.alice (Toy.tape 7))).2).
Proof.
  eapply (proj1 (proj2 (success_is_saved Toy_laws "alice" "pw1" "github" "s3cr3t"
                          "c" "n" (Toy.alice (Toy.tape 7))))).
  vm_compute. reflexivity.
Defined.

(** X2: a call for one username never touches the record of another:
    after [create_account], [add_password] or [recover_account] for [u],
    on every path, the table holds for every other username what it held
    before. *)
Theorem other_accounts_untouched {L : Library} (HL : LibraryLaws L)
    (u v : string) (w : world) :
  v ≠ u →
  ∀ pw svc p c npw,
    users (create_account u pw w).2 !! v = users w !! v ∧
    users (add_password u pw svc p w).2 !! v = users w !! v ∧
    users (recover_account u c npw w).2 !! v = users w !! v.
Proof.
  intros Hv pw svc p c npw. split_and!.
  - destruct (users w !! u) as [a|] eqn:E.
    + by rewrite create_account_taken by by rewrite E.
    + destruct (create_account_fresh u pw w E) as (codes & rd & t & -> & _).
      cbn. by apply lookup_insert_ne.
  - destruct (add_password_effect u pw svc p w)
      as [(-> & _)|(a & m & mk & _ & _ & _ & ->)]; [done|].
    cbn. by apply lookup_insert_ne.
  - destruct (users w !! u) as [a|] eqn:E.
    + destruct (recover_account_cases u c npw a w E)
        as [[x ->]|[[_ ->]|(l1 & e & l2 & mk & _ & _ & _ & ->)]]; [done..|].
      unfold recovered. cbn. by apply lookup_insert_ne.
    + by rewrite recover_account_absent.
Qed.

Lemma other_accounts_untouched_witness :
  "alice" ≠ "bob" ∧
  users (@create_account Toy.lib "bob" "pw2" (Toy.alice (Toy.tape 7))).2 !! "alice"
    = users (Toy.alice (Toy.tape 7)) !! "alice".
Proof.
  assert (H : "alice" ≠ "bob") by done.
  split; [exact H|].
  exact (proj1 (other_accounts_untouched Toy_laws "bob" "alice"
                  (Toy.alice (Toy.tape 7)) H "pw2" "s" "p" "c" "n")).
Defined.

(** X3: [get_password] only reads: on every path, found or not, decrypted
    or not, returned or raised, the state afterwards is the state before. *)
Theorem get_password_read_only {L : Library} (u pw svc : string) (w : world) :
  (get_password u pw svc w).2 = w.
Proof. apply get_password_state. Qed.

(** X4: for a username that is not in the table, [login], [add_password],
    [get_password] and [recover_account] all answer "User not found" and
    leave the state as it was. *)
Theorem unknown_user {L : Library} (u : string) (w : world) :
  users w !! u = None →
  ∀ pw svc p c npw,
    login u pw w = (Return (false, "User not found", None), w) ∧
    add_password u pw svc p w = (Return (false, "User not found"), w) ∧
    get_password u pw svc w = (Return (false, "User not found", None), w) ∧
    recover_account u c npw w = (Return (false, "User not found", None), w).
Proof.
  intros E pw svc p c npw. split_and!.
  - by apply login_absent.
  - by apply add_password_absent.
  - by apply get_password_absent.
  - unfold recover_account. run. rewrite E.
    destruct (decide (is_Some None)) as [[? ?]|]; done.
Qed.

Lemma unknown_user_witness :
  users (Toy.alice (Toy.tape 7)) !! "bob" = None ∧
  @login Toy.lib "bob" "pw" (Toy.alice (Toy.tape 7))
    = (Return (false, "User not found", None), Toy.alice (Toy.tape 7)).
Proof.
  assert (H : users (Toy.alice (Toy.tape 7)) !! "bob" = None)
    by (vm_compute; reflexivity).
  split; [exact H|].
  exact (proj1 (@unknown_user Toy.lib "bob" (Toy.alice (Toy.tape 7)) H
                  "pw" "s" "p" "c" "n")).
Defined.

(** X5: [get_password] for a service that was never stored, asked with a
    password that logs in, answers "No password stored for <service>" and
    changes nothing. *)
Theorem get_password_missing_service {L : Library}
    (u pw svc : string) (w : world) (a : user_data) (m : string)
    (k : option bytes) :
  users w !! u = Some a →
  login u pw w = (Return (true, m, k), w) →
  passwords a !! svc = None →
  get_password u pw svc w
    = (Return (false, "No password stored for " +:+ svc, None), w).
Proof.
  intros Hu Hlogin Hs.
  rewrite (login_present _ _ _ _ Hu) in Hlogin. injection Hlogin as Hc.
  rewrite (get_password_present _ _ _ _ _ Hu), Hc. cbn.
  unfold fetch_password. by rewrite Hs.
Qed.

Lemma get_password_missing_service_witness :
  @get_password Toy.lib "alice" "pw1" "github" (Toy.alice (Toy.tape 7))
    = (Return (false, "No password stored for github", None),
       Toy.alice (Toy.tape 7)).
Proof.
  eapply (@get_password_missing_service Toy.lib "alice" "pw1" "github");
    vm_compute; reflexivity.
Defined.

(** X6: the vault of a new account is empty: right after a successful
    [create_account], [get_password] with the master password answers "No
    password stored for <service>" for every service. *)
Theorem new_account_has_no_passwords {L : Library} (HL : LibraryLaws L)
    (u pw svc : string) (w w1 : world) (codes : list string) :
  create_account u pw w
    = (Return (true, "Account created successfully", codes), w1) →
  get_password u pw svc w1
    = (Return (false, "No password stored for " +:+ svc, None), w1).
Proof.
  intros Hc. destruct (users w !! u) as [a|] eqn:E.
  { by rewrite create_account_taken in Hc by by rewrite E. }
  destruct (create_account_fresh u pw w E) as (codes' & rd & t & Hc' & _).
  rewrite Hc' in Hc. injection Hc as _ <-. cbn.
  erewrite get_password_present by (cbn; apply lookup_insert_eq).
  unfold created.
  rewrite check_password_sealed by apply length_next_bytes. cbn.
  unfold fetch_password. by rewrite lookup_empty.
Qed.

Lemma new_account_has_no_passwords_witness :
  @get_password Toy.lib "bob" "pw2" "mail"
     (@create_account Toy.lib "bob" "pw2" (Toy.alice (Toy.tape 7))).2
  = (Return (false, "No password stored for mail", None),
     (@create_account Toy.lib "bob" "pw2" (Toy.alice (Toy.tape 7))).2).
Proof.
  eapply (new_account_has_no_passwords Toy_laws "bob" "pw2" "mail"
            (Toy.alice (Toy.tape 7))).
  vm_compute. reflexivity.
Defined.

(** X7: a second [add_password] for the same service overwrites the first:
    [get_password] then returns the password added last. *)
Theorem add_password_overwrites {L : Library} (HL : LibraryLaws L)
    (u pw svc p1 p2 : string) (w : world) (m : string) (mk : bytes) :
  login u pw w = (Return (true, m, Some mk), w) →
  length mk = 32 →
  ∃ w1 w2,
    add_password u pw svc p1 w
      = (Return (true, "Password for " +:+ svc +:+ " added successfully"), w1) ∧
    add_password u pw svc p2 w1
      = (Return (true, "Password for " +:+ svc +:+ " added successfully"), w2) ∧
    get_password u pw svc w2
      = (Return (true, "Password for " +:+ svc, Some p2), w2).
Proof.
  intros Hlogin Hlen. apply AES_key_size_32 in Hlen.
  destruct (login_success_inv _ _ _ _ _ _ Hlogin) as (a & Hu & Hc).
  pose proof (add_password_run u pw svc p1 w a m mk Hu Hc Hlen) as H1.
  cbn in H1.
  match type of H1 with
  | _ = (_, ?w1) =>
      destruct (add_then_get u pw svc p2 w1 _ m mk
                  (lookup_insert_eq _ _ _) Hc Hlen) as (w2 & H2 & H3)
  end.
  eexists _, w2. split; [exact H1|]. split; [exact H2|exact H3].
Qed.

Lemma add_password_overwrites_witness :
  ∃ w1 w2,
    @add_password Toy.lib "alice" "pw1" "github" "first" (Toy.alice (Toy.tape 7))
      = (Return (true, "Password for github added successfully"), w1) ∧
    @add_password Toy.lib "alice" "pw1" "github" "second" w1
      = (Return (true, "Password for github added successfully"), w2) ∧
    @get_password Toy.lib "alice" "pw1" "github" w2
      = (Return (true, "Password for github", Some "second"), w2).
Proof.
  eapply (add_password_overwrites Toy_laws "alice" "pw1" "github" "first" "second"
            (Toy.alice (Toy.tape 7))); vm_compute; reflexivity.
Defined.

(** X8: a successful [add_password] changes one thing, the stored
    password of that service in that account.  Salt, master-key envelope
    and recovery list stay, so every password logs in exactly as before,
    and [get_password] for any other service answers as before. *)
Theorem add_password_changes_one_service {L : Library}
    (u pw svc p : string) (w w' : world) (msg : string) :
  add_password u pw svc p w = (Return (true, msg), w') →
  ∃ a a',
    users w !! u = Some a ∧ users w' !! u = Some a' ∧
    salt a' = salt a ∧
    encrypted_master_key a' = encrypted_master_key a ∧
    recovery_data a' = recovery_data a ∧
    (∀ svc', svc' ≠ svc → passwords a' !! svc' = passwords a !! svc') ∧
    (∀ pw', (login u pw' w').1 = (login u pw' w).1) ∧
    (∀ pw' svc', svc' ≠ svc →
       (get_password u pw' svc' w').1 = (get_password u pw' svc' w).1).
Proof.
  intros H.
  destruct (add_password_effect u pw svc p w)
    as [(_ & _ & Hn)|(a & m & mk & Hu & Hc & Hk & Hr)].
  { exfalso. apply (Hn msg). by rewrite H. }
  rewrite Hr in H. injection H as _ <-.
  eexists a, _. split; [done|]. split; [cbn; apply lookup_insert_eq|].
  cbn. split_and!; try done.
  - intros svc' Hs. by rewrite lookup_insert_ne.
  - intros pw'. rewrite (login_present _ _ _ _ Hu).
    by erewrite login_present by (cbn; apply lookup_insert_eq).
  - intros pw' svc' Hs. rewrite (get_password_present _ _ _ _ _ Hu).
    erewrite get_password_present by (cbn; apply lookup_insert_eq). cbn.
    replace (check_password _ pw') with (check_password a pw') by done.
    destruct (check_password a pw') as [[[[] m'] k]|e]; cbn; try done.
    unfold fetch_password. by rewrite lookup_insert_ne.
Qed.

Lemma add_password_changes_one_service_witness :
  (@login Toy.lib "alice" "pw1"
     (@add_password Toy.lib "alice" "pw1" "github" "s3cr3t"
        (Toy.alice (Toy.tape 7))).2).1
  = (@login Toy.lib "alice" "pw1" (Toy.alice (Toy.tape 7))).1.
Proof.
  edestruct (@add_password_changes_one_service Toy.lib "alice" "pw1" "github"
               "s3cr3t" (Toy.alice (Toy.tape 7)))
    as (a & a' & _ & _ & _ & _ & _ & _ & Hlogin & _).
  - vm_compute. reflexivity.
  - exact (Hlogin "pw1").
Defined.

(** X9: [add_password] and [get_password] stand behind [login]: when
    [login] refuses the password they return its message, give out
    nothing, and leave the state as it was.  For an existing user that
    message is "Invalid password". *)
Theorem wrong_password_is_refused {L : Library}
    (u pw : string) (w : world) (m : string) (k : option bytes) :
  login u pw w = (Return (false, m, k), w) →
  ∀ svc p,
    add_password u pw svc p w = (Return (false, m), w) ∧
    get_password u pw svc w = (Return (false, m, None), w) ∧
    (is_Some (users w !! u) → m = "Invalid password").
Proof.
  intros Hlogin svc p. destruct (users w !! u) as [a|] eqn:E.
  - rewrite (login_present _ _ _ _ E) in Hlogin. injection Hlogin as Hc.
    split_and!.
    + by eapply add_password_refused.
    + by rewrite (get_password_present _ _ _ _ _ E), Hc.
    + intros _. by destruct (check_password_false_inv _ _ _ _ Hc).
  - rewrite (login_absent _ _ _ E) in Hlogin. injection Hlogin as <- <-.
    split_and!.
    + by apply add_password_absent.
    + by apply get_password_absent.
    + by intros [? ?].
Qed.

Lemma wrong_password_is_refused_witness :
  @add_password Toy.lib "alice" "wrongpw" "github" "s3cr3t" (Toy.alice (Toy.tape 7))
    = (Return (false, "Invalid password"), Toy.alice (Toy.tape 7)).
Proof.
  eapply (@wrong_password_is_refused Toy.lib "alice" "wrongpw").
  vm_compute. reflexivity.
Defined.

(** X10: every code [create_account] returns recovers the account: with
    any of them [recover_account] succeeds, and [login] with the new
    password then succeeds with the key recovered.  With the first code
    of the list that key is the one the master password unlocked. *)
Theorem returned_codes_recover {L : Library} (HL : LibraryLaws L)
    (u pw c npw : string) (w w1 : world) (codes : list string) :
  create_account u pw w
    = (Return (true, "Account created successfully", codes), w1) →
  c ∈ codes →
  ∃ mk w2,
    recover_account u c npw w1
      = (Return (true, "Account recovered successfully", Some mk), w2) ∧
    login u npw w2 = (Return (true, "Login successful", Some mk), w2) ∧
    (head codes = Some c →
     login u pw w1 = (Return (true, "Login successful", Some mk), w1)).
Proof.
  intros Hc Hin. destruct (users w !! u) as [a|] eqn:E.
  { by rewrite create_account_taken in Hc by by rewrite E. }
  destruct (create_account_fresh u pw w E)
    as (codes' & rd & t & Hc' & _ & _ & _ & Hopen).
  rewrite Hc' in Hc. injection Hc as -> <-. cbn.
  set (us := <[u := created pw w rd]> (users w)).
  set (w1 := World us (Some us) t).
  assert (Hu : users w1 !! u = Some (created pw w rd)) by apply lookup_insert_eq.
  assert (Hdec : Forall entry_decodes rd).
  { apply Forall_forall. intros e He.
    apply list_elem_of_lookup in He as [i Hi].
    destruct (Forall2_lookup_r _ _ _ _ _ Hopen Hi) as (code & _ & Ho).
    by eapply try_entry_Return_decodes. }
  apply list_elem_of_lookup in Hin as [i Hi].
  destruct (Forall2_lookup_l _ _ _ _ _ Hopen Hi) as (e & Hei & Ho).
  destruct (recover_account_decodes u c npw _ w1 Hu Hdec)
    as [[Hall _]|(l1 & e' & l2 & mk & Hl & Hl1 & He' & Hr)].
  { cbn in Hall. rewrite Forall_forall in Hall.
    rewrite Hall in Ho; [done|]. by eapply list_elem_of_lookup_2. }
  exists mk, (recovered u npw (created pw w rd) mk (l1 ++ l2) w1).
  split_and!; [done|apply login_recovered|].
  intros Hhead. rewrite (login_present _ _ _ _ Hu). unfold created.
  rewrite check_password_sealed by apply length_next_bytes.
  cbn in Hl. destruct codes as [|c0 codes]; [done|].
  injection Hhead as ->. inversion Hopen as [|? e0 ? rd0 Ho0 _]; subst.
  destruct l1 as [|y l1]; cbn in Hl; injection Hl as -> _.
  - congruence.
  - inversion Hl1; subst. congruence.
Qed.

Lemma returned_codes_recover_witness :
  ∃ mk w2,
    @recover_account Toy.lib "alice" "56789012" "newpw" (Toy.alice (Toy.tape 7))
      = (Return (true, "Account recovered successfully", Some mk), w2) ∧
    @login Toy.lib "alice" "newpw" w2
      = (Return (true, "Login successful", Some mk), w2).
Proof.
  edestruct (returned_codes_recover Toy_laws "alice" "pw1" "56789012" "newpw"
               (Toy.fresh (Toy.tape 7)) (Toy.alice (Toy.tape 7)))
    as (mk & w2 & H1 & H2 & _).
  - vm_compute. reflexivity.
  - vm_compute. do 5 right. left.
  - exists mk, w2. exact (conj H1 H2).
Defined.

(** X11: a key that is not 16, 24 or 32 bytes long is refused with
    [ValueError] by both directions.  [decrypt_data] refuses it whatever
    the envelope; [encrypt_data] has by then drawn its 16-byte nonce, and
    touches neither the table nor the file. *)
Theorem bad_key_size {L : Library} (key : bytes) :
  length key ≠ 16 → length key ≠ 24 → length key ≠ 32 →
  (∀ enc, decrypt_data enc key = Raise ValueError) ∧
  (∀ data w, encrypt_data data key w = (Raise ValueError, advance 16 w)).
Proof.
  intros H16 H24 H32.
  assert (Hk : AES_key_size key = false).
  { unfold AES_key_size. apply bool_decide_eq_false. tauto. }
  split.
  - intros enc. unfold decrypt_data, algorithms_AES. by rewrite Hk.
  - intros data w. by apply encrypt_data_bad_key.
Qed.

Lemma bad_key_size_witness :
  @decrypt_data Toy.lib (replicate 40 x00) (replicate 20 x2a) = Raise ValueError.
Proof.
  apply (@bad_key_size Toy.lib (replicate 20 x2a)); cbn; lia.
Defined.

(** X12: a stored salt or master-key envelope that is not valid base64 is
    not reported as a wrong password: the decoding sits before the [try],
    so the error leaves [login] as an exception, and leaves [add_password]
    and [get_password] the same way.  The state is untouched. *)
Theorem malformed_record_raises {L : Library}
    (u : string) (w : world) (a : user_data) :
  users w !! u = Some a →
  b64decode (salt a) = None ∨
    (is_Some (b64decode (salt a)) ∧ b64decode (encrypted_master_key a) = None) →
  ∀ pw svc p,
    login u pw w = (Raise BinasciiError, w) ∧
    add_password u pw svc p w = (Raise BinasciiError, w) ∧
    get_password u pw svc w = (Raise BinasciiError, w).
Proof.
  intros Hu Hbad pw svc p.
  assert (Hc : check_password a pw = Raise BinasciiError).
  { unfold check_password, base64_b64decode.
    destruct Hbad as [->|[[s ->] ->]]; done. }
  split_and!.
  - by rewrite (login_present _ _ _ _ Hu), Hc.
  - by eapply add_password_raise.
  - by rewrite (get_password_present _ _ _ _ _ Hu), Hc.
Qed.

Lemma malformed_record_raises_witness :
  @login ToyStrict.lib "mallory" "pw" ToyStrict.damaged
    = (Raise BinasciiError, ToyStrict.damaged).
Proof.
  assert (H1 : users ToyStrict.damaged !! "mallory"
               = Some (UserData "salt" "=envelope" ∅ [])) by reflexivity.
  exact (proj1 (@malformed_record_raises ToyStrict.lib "mallory"
                  ToyStrict.damaged _ H1 (or_introl eq_refl) "pw" "s" "p")).
Defined.


(** X14: for an account whose recovery entries all decode,
    [recover_account] succeeds exactly when the code opens one of the
    entries, and answers "Invalid recovery code" otherwise. *)
Theorem recover_account_succeeds_iff {L : Library} (HL : LibraryLaws L)
    (u c npw : string) (w : world) (a : user_data) :
  users w !! u = Some a →
  Forall entry_decodes (recovery_data a) →
  ((∃ mk, (recover_account u c npw w).1
            = Return (true, "Account recovered successfully", Some mk))
   ↔ ∃ e mk, e ∈ recovery_data a ∧ try_entry c e = Return (Some mk)) ∧
  ((¬ ∃ e mk, e ∈ recovery_data a ∧ try_entry c e = Return (Some mk)) →
   recover_account u c npw w
     = (Return (false, "Invalid recovery code", None), w)).
Proof.
  intros Hu Hdec.
  destruct (recover_account_decodes u c npw a w Hu Hdec)
    as [[Hall Hr]|(l1 & e & l2 & mk & Hl & Hl1 & He & Hr)]; rewrite Hr; cbn.
  - split; [|done]. split; [by intros [mk [=]]|].
    intros (e & mk & Hin & He). rewrite Forall_forall in Hall.
    rewrite (Hall _ Hin) in He. done.
  - assert (Hex : ∃ e mk, e ∈ recovery_data a ∧ try_entry c e = Return (Some mk)).
    { exists e, mk. split; [rewrite Hl; set_solver|done]. }
    split; [|by intros Hn; destruct Hn].
    split; [done|]. intros _. by exists mk.
Qed.

Lemma recover_account_succeeds_iff_witness :
  (∃ mk, (@recover_account Toy.lib "alice" "12345678" "newpw"
             (Toy.alice (Toy.tape 7))).1
           = Return (true, "Account recovered successfully", Some mk))
  ↔ ∃ e mk, e ∈ recovery_data (Toy.alice_record (Toy.tape 7)) ∧
            @try_entry Toy.lib "12345678" e = Return (Some mk).
Proof.
  eapply (recover_account_succeeds_iff Toy_laws "alice" "12345678" "newpw").
  - vm_compute. reflexivity.
  - apply Forall_forall. intros e _. split; by eexists.
Defined.

(** X15: the methods only ever store base64 they produced: if every salt,
    envelope, recovery entry and stored password of the table decodes
    (as in an empty table), the same holds after any method, on every
    path. *)
Theorem methods_keep_store_decodable {L : Library} (HL : LibraryLaws L)
    (w : world) :
  (users w = ∅ → store_decodes w) ∧
  (store_decodes w →
   ∀ u pw svc p c npw,
     store_decodes (create_account u pw w).2 ∧
     store_decodes (login u pw w).2 ∧
     store_decodes (add_password u pw svc p w).2 ∧
     store_decodes (get_password u pw svc w).2 ∧
     store_decodes (recover_account u c npw w).2).
Proof.
  split; [apply store_decodes_empty|].
  intros Hw u pw svc p c npw. split_and!.
  - by apply create_account_decodes.
  - by rewrite login_state.
  - destruct (add_password_effect u pw svc p w)
      as [(Hu & _)|(a & m & mk & Hu & _ & _ & ->)].
    + by eapply store_decodes_same.
    + cbn. destruct (map_Forall_lookup_1 _ _ _ _ Hw Hu) as (? & ? & ? & ?).
      apply store_decodes_insert; [|done].
      split_and!; cbn; [done..|].
      apply map_Forall_insert_2; [apply is_Some_b64|done].
  - by rewrite get_password_state.
  - destruct (users w !! u) as [a|] eqn:E.
    + destruct (recover_account_cases u c npw a w E)
        as [[x ->]|[[_ ->]|(l1 & e & l2 & mk & Hl & _ & _ & ->)]]; [done..|].
      destruct (map_Forall_lookup_1 _ _ _ _ Hw E) as (_ & _ & Hrd & ?).
      unfold recovered. apply store_decodes_insert; [|done].
      split_and!; cbn; [apply is_Some_b64..| |done].
      rewrite Hl in Hrd. apply Forall_app in Hrd as [? Hrd].
      apply Forall_cons in Hrd as [_ ?]. by apply Forall_app.
    + by rewrite recover_account_absent.
Qed.

Lemma methods_keep_store_decodable_witness :
  @store_decodes Toy.lib
    (@create_account Toy.lib "alice" "pw1" (Toy.fresh (Toy.tape 7))).2.
Proof.
  destruct (methods_keep_store_decodable Toy_laws (Toy.fresh (Toy.tape 7)))
    as [H0 H].
  exact (proj1 (H (H0 eq_refl) "alice" "pw1" "s" "p" "c" "n")).
Defined.

(** X17: on a finite input the console always stops: by the choice "6",
    by [EOFError] when [input] finds nothing left to read, or by an
    exception of the manager that nothing catches.  The bound on the turns
    of the loop plays no part: every bound above the number of lines gives
    the same run.  Without a line "6" the console cannot stop by "6". *)
Theorem console_always_stops {L : Library} (lines : list string) (w : world) :
  (main lines w).1 ≠ Fault Running ∧
  (∀ steps, length lines < steps →
     test_secure_manager steps (Console lines [] w) = main lines w) ∧
  ("6" ∉ lines → (main lines w).1 ≠ Done tt).
Proof.
  unfold main. rewrite test_secure_manager_run.
  match goal with |- context [menu_loop _ ?c] => set (c0 := c) end.
  destruct (menu_loop_bounded (S (length lines)) c0 lines) as [Hrun Hexit];
    [cbn; lia|done|].
  split_and!; [done| |done].
  intros steps Hsteps. rewrite test_secure_manager_run.
  apply menu_loop_enough; [lia|done].
Qed.

Lemma console_always_stops_witness :
  "6" ∉ ["2"; "bob"] ∧
  (@main Toy.lib ["2"; "bob"] (Toy.fresh (Toy.tape 3))).1 ≠ Done tt.
Proof.
  assert (H : "6" ∉ ["2"; "bob"]) by set_solver.
  split; [exact H|].
  exact (proj2 (proj2 (@console_always_stops Toy.lib ["2"; "bob"]
                         (Toy.fresh (Toy.tape 3)))) H).
Defined.

(** X19: a whole session at the console.  For a username the database
    does not hold, typing 1 (create), 3 (add a password for a service),
    4 (get it) and 6 ends normally, leaves the lines typed after "6"
    unread, and the last things written are the password that was stored,
    the prompt and "Exiting...". *)
Theorem console_session {L : Library} (HL : LibraryLaws L)
    (u pw svc p : string) (rest : list string) (w : world) :
  default ∅ (db_file w) !! u = None →
  ∃ out c',
    main (["1"; u; pw; "3"; u; pw; svc; p; "4"; u; pw; svc; "6"] ++ rest) w
      = (Done tt, c') ∧
    stdin c' = rest ∧
    stdout c' = out ++ [(("Password for " +:+ svc) +:+ ": " +:+ p) +:+ nl;
                        nl +:+ "Enter your choice: ";
                        "Exiting..." +:+ nl].
Proof.
  intros E. destruct (session_post u pw svc p rest w E) as (Hr & Hin & out & Hout).
  exists out. eexists. split; [|done].
  unfold main. by rewrite <- Hr, <- surjective_pairing.
Qed.

Lemma console_session_witness :
  ∃ out c',
    @main Toy.lib ["1"; "bob"; "pw2"; "3"; "bob"; "pw2"; "mail"; "hunter2";
                   "4"; "bob"; "pw2"; "mail"; "6"; "unread"]
          (Toy.fresh (Toy.tape 3)) = (Done tt, c') ∧
    stdin c' = ["unread"] ∧
    stdout c' = out ++ [(("Password for " +:+ "mail") +:+ ": " +:+ "hunter2") +:+ nl;
                        nl +:+ "Enter your choice: ";
                        "Exiting..." +:+ nl].
Proof.
  apply (console_session Toy_laws "bob" "pw2" "mail" "hunter2" ["unread"]
           (Toy.fresh (Toy.tape 3))).
  reflexivity.
Defined.
